(** * Filter and subscription engine of the JSON-RPC front-end

    A shallow embedding of the filter part of [jsonrpc/endpoints_eth.go]:
    the log matcher ([filterLogs], [contains]), the pre-filter skip test
    ([shouldSkipLogFilter]), the bounded fan-out ([parallelize],
    [notifyNewLogs]) and the two poll operations ([GetFilterChanges],
    [GetFilterLogs]).

    Conventions.
    - [common.Address] and [common.Hash] are fixed-size byte arrays that the
      code only compares with [==]; they are represented by the number the
      bytes spell (big endian), on which equality coincides.
    - Go [int], [uint64] and [time.Time] values are carried in [Z]; the
      arithmetic of [parallelize] is bounded by twice the length of a slice
      and never leaves the 64-bit range.
    - A Go function that may panic, print or enqueue is a function of the
      [Go] monad below: a state transformer over a trace of observable
      events whose outcome is either a normal return or a panic. *)

From Stdlib Require Import ZArith Lia.
From stdpp Require Import base tactics option list strings gmap.

Local Open Scope Z_scope.

(** ** Data model *)

Definition Address := N.
Definition Hash := N.
Definition Data := string.
Definition Time := Z.
Definition BlockNumber := Z.

(** [ethTypes.Log]: the fields the engine reads. *)
Record EthLog := {
  log_Address : Address;
  log_Topics : list Hash;
  log_Data : Data;
  log_BlockNumber : Z;
  log_Index : Z;
}.

(** Modelled from the spec: [types.NewLog] is declared in the [types]
    package; it builds the RPC view of a log, which carries the fields of the
    log it is built from. *)
Inductive RpcLog := NewLog (l : EthLog).

(** [LogFilter]: declared in the same package, used here through its fields. *)
Record LogFilter := {
  BlockHash : option Hash;
  FromBlock : option BlockNumber;
  ToBlock : option BlockNumber;
  Addresses : list Address;
  Topics : list (list Hash);
  Since : option Time;
}.

Definition with_Since (since : option Time) (f : LogFilter) : LogFilter :=
  {| BlockHash := BlockHash f; FromBlock := FromBlock f; ToBlock := ToBlock f;
     Addresses := Addresses f; Topics := Topics f; Since := since |}.

(** [FilterType] is a string type in the source; the three declared
    constants and any other value. *)
Inductive FilterType :=
  | FilterTypeBlock
  | FilterTypeLog
  | FilterTypePendingTx
  | FilterTypeOther (name : string).

#[global] Instance FilterType_eq_dec : EqDecision FilterType.
Proof. solve_decision. Defined.

(** [Filter.Parameters] has type [interface{}]: the assertion
    [filter.Parameters.(LogFilter)] panics unless it holds a [LogFilter]. *)
Inductive FilterParameters :=
  | NoParameters
  | LogFilterParameters (lf : LogFilter).

Record Filter := {
  ID : string;
  Type_ : FilterType;
  Parameters : FilterParameters;
  LastPoll : Time;
  WsConn : option Z;
}.

Definition with_LastPoll (t : Time) (f : Filter) : Filter :=
  {| ID := ID f; Type_ := Type_ f; Parameters := Parameters f;
     LastPoll := t; WsConn := WsConn f |}.

(** [state.NewL2BlockEvent]: the block (number and hash) and its logs. *)
Record NewL2BlockEvent := {
  Block_NumberU64 : Z;
  Block_Hash : Hash;
  Logs : list EthLog;
}.

(** Go [error] values met by this code. *)
Inductive error :=
  | ErrNotFound
  | ErrFilterInvalidPayload
  | errorString (msg : string).

(** [types.Error]: a JSON-RPC error, a code and a message. *)
Record RPCError := NewRPCError { ErrorCode : Z; ErrorMessage : string }.

Definition DefaultErrorCode : Z := -32000.

Inductive result (E A : Type) :=
  | Ok (a : A)
  | Err (e : E).
Arguments Ok {E A} a.
Arguments Err {E A} e.

(** ** The [Go] monad: traces, panics and recovery *)

Record World (E : Type) := {
  events : list E;
  stdout : list string;
}.
Arguments events {E} w.
Arguments stdout {E} w.

Definition emit {E} (e : E) (w : World E) : World E :=
  {| events := events w ++ [e]; stdout := stdout w |}.

Definition Println {E} (s : string) (w : World E) : World E :=
  {| events := events w; stdout := stdout w ++ [s] |}.

Inductive outcome (A : Type) :=
  | Returned (a : A)
  | Panicked (v : string).
Arguments Returned {A} a.
Arguments Panicked {A} v.

Definition Go (E A : Type) := World E -> outcome A * World E.

Definition ret {E A} (a : A) : Go E A := fun w => (Returned a, w).

Definition bind {E A B} (m : Go E A) (k : A -> Go E B) : Go E B :=
  fun w => match m w with
           | (Returned a, w') => k a w'
           | (Panicked v, w') => (Panicked v, w')
           end.

Definition panic {E A} (v : string) : Go E A := fun w => (Panicked v, w).

Definition tell {E} (e : E) : Go E unit := fun w => (Returned tt, emit e w).

Declare Scope go_scope.
Delimit Scope go_scope with go.
Notation "x <- m ;; k" := (bind m (fun x => k))
  (at level 100, m at next level, right associativity) : go_scope.
Notation "m ;;; k" := (bind m (fun _ => k))
  (at level 100, right associativity) : go_scope.

(** [defer func() { ...; err := recover(); if err != nil { fmt.Println(err) } }()]
    around a body: a panic of the body stops there and its value is printed. *)
Definition recovered {E} (body : Go E unit) : Go E unit :=
  fun w => match body w with
           | (Returned _, w') => (Returned tt, w')
           | (Panicked v, w') => (Returned tt, Println v w')
           end.

(** ** LogMatcher *)

Definition maxTopics : nat := 4.

Fixpoint contains {T} `{EqDecision T} (items : list T) (itemsToFind : T) : bool :=
  match items with
  | [] => false
  | item :: rest =>
      if bool_decide (item = itemsToFind) then true else contains rest itemsToFind
  end.

(** The labelled loop [out:] over the topic positions [i], [i+1], ... with
    [fuel] iterations left before [i] reaches [maxTopics]; the result is the
    value of [match] when the loop ends. *)
Fixpoint topicsLoop (fuel i : nat) (filterTopics : list (list Hash))
    (logTopics : list Hash) : bool :=
  match fuel with
  | O => true
  | S fuel' =>
      match filterTopics !! i with
      | None => true
      | Some slot =>
          if bool_decide (length slot = 0%nat)
          then topicsLoop fuel' (S i) filterTopics logTopics
          else match logTopics !! i with
               | None => false
               | Some t =>
                   if contains slot t
                   then topicsLoop fuel' (S i) filterTopics logTopics
                   else false
               end
      end
  end.

(** The value of [match] after the topic check of one log. *)
Definition topicsMatch (logFilter : LogFilter) (l : EthLog) : bool :=
  if bool_decide (0 < length (Topics logFilter))%nat
  then topicsLoop maxTopics 0 (Topics logFilter) (log_Topics l)
  else true.

(** One iteration of the loop over [logsToFilter]: whether the log is
    appended to the result ([continue] on the address check, then the topic
    check). *)
Definition logPasses (logFilter : LogFilter) (l : EthLog) : bool :=
  if bool_decide (0 < length (Addresses logFilter))%nat
     && negb (contains (Addresses logFilter) (log_Address l))
  then false
  else topicsMatch logFilter l.

Fixpoint filterLogsLoop (logFilter : LogFilter) (logsToFilter : list EthLog)
    (logs : list RpcLog) : list RpcLog :=
  match logsToFilter with
  | [] => logs
  | l :: rest =>
      if logPasses logFilter l
      then filterLogsLoop logFilter rest (logs ++ [NewLog l])
      else filterLogsLoop logFilter rest logs
  end.

Definition assertLogFilter {E} (p : FilterParameters) : Go E LogFilter :=
  match p with
  | LogFilterParameters lf => ret lf
  | NoParameters => panic "interface conversion: interface {} is nil, not jsonrpc.LogFilter"
  end.

Definition filterLogs {E} (logsToFilter : list EthLog) (filter : Filter)
    : Go E (list RpcLog) :=
  (logFilter <- assertLogFilter (Parameters filter) ;;
   ret (filterLogsLoop logFilter logsToFilter []))%go.

(** ** Collaborators *)

#[global] Instance error_eq_dec : EqDecision error.
Proof. solve_decision. Defined.

Definition errors_Is (err target : error) : bool := bool_decide (err = target).

(** The value of the [interface{}] result of an endpoint. *)
Inductive RpcResult :=
  | Nil
  | HashesResult (hashes : list Hash)
  | LogsResult (logs : list RpcLog).

Definition Response : Type := RpcResult * option RPCError.

(** Modelled from the spec: [RPCErrorResponse] is declared elsewhere in the
    package; errors "propagate synchronously to the calling RPC method as a
    typed error" (section 7): it logs [err] and returns a nil result with
    the RPC error made of the code and the message. *)
Definition RPCErrorResponse (code : Z) (message : string) (err : option error)
    : Response :=
  (Nil, Some (NewRPCError code message)).

(** [types.StateInterface], the methods used by the filter engine. *)
Record StateInterface := {
  GetL2BlockHashesSince : Time -> result error (list Hash);
  state_GetLogs : Z -> Z -> list Address -> list (list Hash) -> option Hash ->
                  option Time -> result error (list EthLog);
}.

(** [types.PoolInterface]. *)
Record PoolInterface := {
  GetPendingTxHashesSince : Time -> result error (list Hash);
}.

(** [storageInterface] over a store of type [S]. *)
Record storageInterface (S : Type) := {
  GetFilter : string -> S -> result error Filter;
  UpdateFilterLastPoll : string -> S -> option error * S;
  GetAllBlockFiltersWithWSConn : S -> list Filter;
  GetAllLogFiltersWithWSConn : S -> list Filter;
}.
Arguments GetFilter {S} _ _ _.
Arguments UpdateFilterLastPoll {S} _ _ _.
Arguments GetAllBlockFiltersWithWSConn {S} _ _.
Arguments GetAllLogFiltersWithWSConn {S} _ _.

(** [EthEndpoints]. [GetNumericBlockNumber] is the method of
    [*types.BlockNumber] (the receiver may be nil) run against the state and
    etherman of the endpoints; [NewDbTxScope] is the method of [txMan]. *)
Record EthEndpoints (S : Type) := {
  pool : PoolInterface;
  state : StateInterface;
  storage : storageInterface S;
  GetNumericBlockNumber : option BlockNumber -> result RPCError Z;
  NewDbTxScope : (unit -> Response) -> Response;
}.
Arguments pool {S} e.
Arguments state {S} e.
Arguments storage {S} e.
Arguments GetNumericBlockNumber {S} e _.
Arguments NewDbTxScope {S} e _.

(** Observable effects of the fan-out: a payload handed to
    [EnqueueSubscriptionDataToBeSent] of a filter, a line of [log.Errorf]. *)
Inductive WireEvent :=
  | Enqueue (filterID : string) (data : Data)
  | LogError (msg : string).

(** ** Bounded fan-out *)

Definition len {T} (items : list T) : Z := Z.of_nat (length items).

(** [items[lo:hi]]; out-of-range bounds panic. *)
Definition slice {T E} (items : list T) (lo hi : Z) : Go E (list T) :=
  if bool_decide (0 <= lo /\ lo <= hi /\ hi <= len items)
  then ret (take (Z.to_nat (hi - lo)) (drop (Z.to_nat lo) items))
  else panic "runtime error: slice bounds out of range".

(** The loop [for worker := 0; worker < workersCount; worker++], with
    [fuel] iterations left. A goroutine started by [go] runs when it is
    started: the tasks are taken in the order of their workers, the
    interleaving of the scheduler is not represented. *)
Fixpoint spawnLoop {T E} (fuel : nat) (worker jobSize : Z) (items : list T)
    (fn : Z -> list T -> Go E unit) : Go E unit :=
  match fuel with
  | O => ret tt
  | S fuel' =>
      let rangeStart := worker * jobSize in
      let rangeEnd := (worker + 1) * jobSize in
      if bool_decide (rangeStart > len items)
      then spawnLoop fuel' (worker + 1) jobSize items fn
      else
        let rangeEnd := if bool_decide (rangeEnd > len items)
                        then len items else rangeEnd in
        (jobItems <- slice items rangeStart rangeEnd ;;
         recovered (fn worker jobItems) ;;;
         spawnLoop fuel' (worker + 1) jobSize items fn)%go
  end.

Definition parallelize {T E} (maxWorkers : Z) (items : list T)
    (fn : Z -> list T -> Go E unit) : Go E unit :=
  if bool_decide (len items = 0) then ret tt
  else
    let workersCount :=
      if bool_decide (maxWorkers > len items) then len items else maxWorkers in
    if bool_decide (workersCount = 0)
    then panic "runtime error: integer divide by zero"
    else
      let jobSize := Z.quot (len items) workersCount in
      let rest := Z.rem (len items) workersCount in
      let jobSize := if bool_decide (rest > 0) then jobSize + 1 else jobSize in
      spawnLoop (Z.to_nat workersCount) 0 jobSize items fn.

(** Reference vocabulary for the partition: the tasks run one after the
    other, each under its own recovery, and the effect of one task. *)
Fixpoint runTasks {T E} (fn : Z -> list T -> Go E unit)
    (tasks : list (Z * list T)) : Go E unit :=
  match tasks with
  | [] => ret tt
  | (worker, jobItems) :: more =>
      (recovered (fn worker jobItems) ;;; runTasks fn more)%go
  end.

Definition taskEffect {T E} (fn : Z -> list T -> Go E unit)
    (w : World E) (task : Z * list T) : World E :=
  match fn task.1 task.2 w with
  | (Returned _, w') => w'
  | (Panicked v, w') => Println v w'
  end.

Definition ceilDiv (n w : nat) : nat := ((n + w - 1) / w)%nat.

(** ** The endpoints *)

Section Endpoints.

Context {S : Type}.
Variable e : EthEndpoints S.

(** [json.Marshal] on an RPC log, and the construction and encoding of the
    block of a head notification ([types.NewBlock], [json.Marshal]). *)
Variable json_Marshal : RpcLog -> result error Data.
Variable RpcBlock : Type.
Variable types_NewBlock : NewL2BlockEvent -> result error RpcBlock.
Variable json_Marshal_block : RpcBlock -> result error Data.

Definition rpcErrorText (rpcErr : RPCError) : string := ErrorMessage rpcErr.

(** [bh.String() != event.Block.Hash().String()] compares the hexadecimal
    renderings of two hashes, which differ exactly when the hashes do. *)
Definition shouldSkipLogFilter (event : NewL2BlockEvent) (filter : Filter)
    : Go WireEvent bool :=
  (logFilter <- assertLogFilter (Parameters filter) ;;
   match BlockHash logFilter with
   | Some bh =>
       if bool_decide (bh <> Block_Hash event) then ret true else ret false
   | None =>
       skip <- match FromBlock logFilter with
               | Some _ =>
                   match GetNumericBlockNumber e (FromBlock logFilter) with
                   | Err rpcErr =>
                       tell (LogError
                         ("failed to get numeric block number for FromBlock field for filter "
                          +:+ ID filter +:+ ": " +:+ rpcErrorText rpcErr)) ;;;
                       ret true
                   | Ok fromBlock =>
                       ret (bool_decide (Block_NumberU64 event < fromBlock))
                   end
               | None => ret false
               end ;;
       if (skip : bool) then ret true
       else
         match ToBlock logFilter with
         | Some _ =>
             match GetNumericBlockNumber e (ToBlock logFilter) with
             | Err rpcErr =>
                 tell (LogError
                   ("failed to get numeric block number for ToBlock field for filter "
                    +:+ ID filter +:+ ": " +:+ rpcErrorText rpcErr)) ;;;
                 ret true
             | Ok toBlock =>
                 ret (bool_decide (Block_NumberU64 event > toBlock))
             end
         | None => ret false
         end
   end)%go.

(** [for _, l := range logs]: encode, report an encoding error, enqueue. *)
Fixpoint enqueueLogs (f : Filter) (logs : list RpcLog) : Go WireEvent unit :=
  match logs with
  | [] => ret tt
  | l :: rest =>
      (data <- match json_Marshal l with
               | Ok data => ret data
               | Err _ =>
                   tell (LogError "failed to marshal ethLog response to subscription") ;;;
                   ret EmptyString
               end ;;
       tell (Enqueue (ID f) data) ;;;
       enqueueLogs f rest)%go
  end.

(** The function literal handed to [parallelize] by [notifyNewLogs]. *)
Fixpoint notifyNewLogs_fn (event : NewL2BlockEvent) (worker : Z)
    (filters : list Filter) : Go WireEvent unit :=
  match filters with
  | [] => ret tt
  | filter :: rest =>
      (skip <- shouldSkipLogFilter event filter ;;
       if (skip : bool) then ret tt
       else
         logs <- filterLogs (Logs event) filter ;;
         enqueueLogs filter logs ;;;
         notifyNewLogs_fn event worker rest)%go
  end.

Definition notifyNewLogs (event : NewL2BlockEvent) (s : S) : Go WireEvent unit :=
  let filters := GetAllLogFiltersWithWSConn (storage e) s in
  let maxWorkers := 16 in
  parallelize maxWorkers filters (notifyNewLogs_fn event).

(** The function literal handed to [parallelize] by [notifyNewHeads]. *)
Fixpoint notifyNewHeads_fn (data : Data) (worker : Z) (filters : list Filter)
    : Go WireEvent unit :=
  match filters with
  | [] => ret tt
  | f :: rest =>
      (tell (Enqueue (ID f) data) ;;; notifyNewHeads_fn data worker rest)%go
  end.

Definition notifyNewHeads (event : NewL2BlockEvent) (s : S) : Go WireEvent unit :=
  match types_NewBlock event with
  | Err _ => tell (LogError "failed to build block response to subscription")
  | Ok b =>
      match json_Marshal_block b with
      | Err _ => tell (LogError "failed to marshal block response to subscription")
      | Ok data =>
          let filters := GetAllBlockFiltersWithWSConn (storage e) s in
          let maxWorkers := 16 in
          parallelize maxWorkers filters (notifyNewHeads_fn data)
      end
  end.

(** The two notifiers are started with [go] and awaited; they are taken
    one after the other. *)
Definition onNewL2Block (event : NewL2BlockEvent) (s : S) : Go WireEvent unit :=
  (notifyNewHeads event s ;;; notifyNewLogs event s)%go.

Definition updateFilterLastPoll (filterID : string) (s : S)
    : option RPCError * S :=
  let '(err, s') := UpdateFilterLastPoll (storage e) filterID s in
  match err with
  | Some err' =>
      if negb (errors_Is err' ErrNotFound)
      then (Some (NewRPCError DefaultErrorCode
              "failed to update last time the filter changes were requested"), s')
      else (None, s')
  | None => (None, s')
  end.

Definition internalGetLogs (filter : LogFilter) : Response :=
  match (match FromBlock filter with
         | Some _ => GetNumericBlockNumber e (FromBlock filter)
         | None => Ok 0
         end) with
  | Err rpcErr => (Nil, Some rpcErr)
  | Ok fromBlock =>
      match GetNumericBlockNumber e (ToBlock filter) with
      | Err rpcErr => (Nil, Some rpcErr)
      | Ok toBlock =>
          match state_GetLogs (state e) fromBlock toBlock (Addresses filter)
                  (Topics filter) (BlockHash filter) (Since filter) with
          | Err err =>
              RPCErrorResponse DefaultErrorCode "failed to get logs from state" (Some err)
          | Ok logs => (LogsResult (map NewLog logs), None)
          end
      end
  end.

Definition GetLogs (filter : LogFilter) : Response :=
  NewDbTxScope e (fun _ => internalGetLogs filter).

(** [GetFilterChanges]: the store is threaded through; only
    [updateFilterLastPoll] changes it. *)
Definition GetFilterChanges (filterID : string) (s : S)
    : outcome Response * S :=
  match GetFilter (storage e) filterID s with
  | Err err =>
      if errors_Is err ErrNotFound
      then (Returned (RPCErrorResponse DefaultErrorCode "filter not found" (Some err)), s)
      else (Returned (RPCErrorResponse DefaultErrorCode
                        "failed to get filter from storage" (Some err)), s)
  | Ok filter =>
      match Type_ filter with
      | FilterTypeBlock =>
          match GetL2BlockHashesSince (state e) (LastPoll filter) with
          | Err err =>
              (Returned (RPCErrorResponse DefaultErrorCode
                           "failed to get block hashes" (Some err)), s)
          | Ok res =>
              let '(rpcErr, s') := updateFilterLastPoll (ID filter) s in
              match rpcErr with
              | Some rpcErr' => (Returned (Nil, Some rpcErr'), s')
              | None =>
                  if bool_decide (length res = 0%nat)
                  then (Returned (Nil, None), s')
                  else (Returned (HashesResult res, None), s')
              end
          end
      | FilterTypePendingTx =>
          match GetPendingTxHashesSince (pool e) (LastPoll filter) with
          | Err err =>
              (Returned (RPCErrorResponse DefaultErrorCode
                           "failed to get pending transaction hashes" (Some err)), s)
          | Ok res =>
              let '(rpcErr, s') := updateFilterLastPoll (ID filter) s in
              match rpcErr with
              | Some rpcErr' => (Returned (Nil, Some rpcErr'), s')
              | None =>
                  if bool_decide (length res = 0%nat)
                  then (Returned (Nil, None), s')
                  else (Returned (HashesResult res, None), s')
              end
          end
      | FilterTypeLog =>
          match Parameters filter with
          | NoParameters =>
              (Panicked "interface conversion: interface {} is nil, not jsonrpc.LogFilter", s)
          | LogFilterParameters lf =>
              let filterParameters := with_Since (Some (LastPoll filter)) lf in
              match internalGetLogs filterParameters with
              | (_, Some err) => (Returned (Nil, Some err), s)
              | (resInterface, None) =>
                  let '(rpcErr, s') := updateFilterLastPoll (ID filter) s in
                  match rpcErr with
                  | Some rpcErr' => (Returned (Nil, Some rpcErr'), s')
                  | None =>
                      match resInterface with
                      | LogsResult res =>
                          if bool_decide (length res = 0%nat)
                          then (Returned (Nil, None), s')
                          else (Returned (LogsResult res, None), s')
                      | _ =>
                          (Panicked "interface conversion: interface {} is not []types.Log", s')
                      end
                  end
              end
          end
      | FilterTypeOther _ => (Returned (Nil, None), s)
      end
  end.

Definition GetFilterLogs (filterID : string) (s : S) : outcome Response * S :=
  match GetFilter (storage e) filterID s with
  | Err err =>
      if errors_Is err ErrNotFound
      then (Returned (Nil, None), s)
      else (Returned (RPCErrorResponse DefaultErrorCode
                        "failed to get filter from storage" (Some err)), s)
  | Ok filter =>
      if negb (bool_decide (Type_ filter = FilterTypeLog))
      then (Returned (Nil, None), s)
      else
        match Parameters filter with
        | NoParameters =>
            (Panicked "interface conversion: interface {} is nil, not jsonrpc.LogFilter", s)
        | LogFilterParameters lf =>
            let filterParameters := with_Since None lf in
            (Returned (GetLogs filterParameters), s)
        end
  end.

End Endpoints.

(** ** Reference definitions *)

(** The reference reading of a match: the address is accepted, and every
    topic position [i] (0 to 3) at which the filter defines a slot is either
    a wildcard or holds a topic of the log that belongs to the slot. *)
Definition Matches_ref (spec : LogFilter) (l : EthLog) : Prop :=
  (Addresses spec = [] \/ log_Address l ∈ Addresses spec) /\
  forall (i : nat) (slot : list Hash),
    (i < maxTopics)%nat -> Topics spec !! i = Some slot ->
    slot = [] \/ exists t, log_Topics l !! i = Some t /\ t ∈ slot.

(** The tasks started by the loop of [parallelize] from worker [k] on, as
    data: the worker and the chunk it is given. *)
Fixpoint tasksFrom {T} (fuel k jobSize : nat) (items : list T)
    : list (Z * list T) :=
  match fuel with
  | O => []
  | S fuel' =>
      if bool_decide (k * jobSize <= length items)%nat
      then (Z.of_nat k, take jobSize (drop (k * jobSize) items))
             :: tasksFrom fuel' (S k) jobSize items
      else tasksFrom fuel' (S k) jobSize items
  end.

(** ** An in-memory store and sample collaborators, for concrete runs *)

(** Modelled from the spec: the filter store is a collaborator (section 6);
    this one keeps the records in registration order next to a clock,
    answers [ErrNotFound] for an unknown ID and sets [LastPoll] to the clock
    on update. *)
Record MemStorage := {
  mem_filters : list Filter;
  mem_now : Time;
}.

Definition mem_GetFilter (id : string) (s : MemStorage) : result error Filter :=
  match List.find (fun f => bool_decide (ID f = id)) (mem_filters s) with
  | Some f => Ok f
  | None => Err ErrNotFound
  end.

Definition mem_UpdateFilterLastPoll (id : string) (s : MemStorage)
    : option error * MemStorage :=
  match List.find (fun f => bool_decide (ID f = id)) (mem_filters s) with
  | Some _ =>
      (None,
       {| mem_filters :=
            map (fun f => if bool_decide (ID f = id)
                          then with_LastPoll (mem_now s) f else f)
                (mem_filters s);
          mem_now := mem_now s |})
  | None => (Some ErrNotFound, s)
  end.

Definition mem_withWSConn (ty : FilterType) (s : MemStorage) : list Filter :=
  List.filter (fun f => bool_decide (Type_ f = ty) && bool_decide (WsConn f <> None))
              (mem_filters s).

Definition memStorage : storageInterface MemStorage :=
  {| GetFilter := mem_GetFilter;
     UpdateFilterLastPoll := mem_UpdateFilterLastPoll;
     GetAllBlockFiltersWithWSConn := mem_withWSConn FilterTypeBlock;
     GetAllLogFiltersWithWSConn := mem_withWSConn FilterTypeLog |}.

(** A resolver that knows the latest block and fails on negative numbers. *)
Definition sampleResolve (latest : Z) (n : option BlockNumber) : result RPCError Z :=
  match n with
  | None => Ok latest
  | Some v =>
      if bool_decide (0 <= v) then Ok v
      else Err (NewRPCError DefaultErrorCode "state is not synchronized")
  end.

Definition sampleEndpoints (st : StateInterface) (latest : Z)
    : EthEndpoints MemStorage :=
  {| pool := {| GetPendingTxHashesSince := fun _ => Ok [] |};
     state := st;
     storage := memStorage;
     GetNumericBlockNumber := sampleResolve latest;
     NewDbTxScope := fun f => f tt |}.

(** A chain state that answers a fixed list of logs whatever the topics. *)
Definition fixedLogsState (logs : list EthLog) : StateInterface :=
  {| GetL2BlockHashesSince := fun _ => Ok [];
     state_GetLogs := fun _ _ _ _ _ _ => Ok logs |}.

(** A chain state whose queries fail. *)
Definition failingState : StateInterface :=
  {| GetL2BlockHashesSince := fun _ => Err (errorString "connection lost");
     state_GetLogs := fun _ _ _ _ _ _ => Err (errorString "connection lost") |}.

Definition sample_Marshal (l : RpcLog) : result error Data :=
  match l with NewLog l' => Ok (log_Data l') end.

Definition anyLogs : LogFilter :=
  {| BlockHash := None; FromBlock := None; ToBlock := None;
     Addresses := []; Topics := []; Since := None |}.

Definition subscription (id : string) (lf : LogFilter) : Filter :=
  {| ID := id; Type_ := FilterTypeLog; Parameters := LogFilterParameters lf;
     LastPoll := 0; WsConn := Some 1 |}.

(** A subscription record whose parameters are missing. *)
Definition brokenSubscription (id : string) : Filter :=
  {| ID := id; Type_ := FilterTypeLog; Parameters := NoParameters;
     LastPoll := 0; WsConn := Some 1 |}.

Definition blockFilter (id : string) : Filter :=
  {| ID := id; Type_ := FilterTypeBlock; Parameters := NoParameters;
     LastPoll := 0; WsConn := None |}.

Definition onlyBlockHash (h : Hash) : LogFilter :=
  {| BlockHash := Some h; FromBlock := None; ToBlock := None;
     Addresses := []; Topics := []; Since := None |}.

Definition blockRange (from to : option BlockNumber) : LogFilter :=
  {| BlockHash := None; FromBlock := from; ToBlock := to;
     Addresses := []; Topics := []; Since := None |}.

Definition log0 : EthLog :=
  {| log_Address := 170%N; log_Topics := [1%N]; log_Data := "log0";
     log_BlockNumber := 6; log_Index := 0 |}.

Definition block6 : NewL2BlockEvent :=
  {| Block_NumberU64 := 6; Block_Hash := 6%N; Logs := [log0] |}.

(** Seventeen subscriptions: the first asks for the block of hash 5, the
    sixteen others accept every log. With 16 workers the chunks have two
    filters each, so the first two filters share a chunk. *)
Definition seventeen : MemStorage :=
  {| mem_filters :=
       subscription "f00" (onlyBlockHash 5%N)
       :: map (fun id => subscription id anyLogs)
            ["f01"; "f02"; "f03"; "f04"; "f05"; "f06"; "f07"; "f08";
             "f09"; "f10"; "f11"; "f12"; "f13"; "f14"; "f15"; "f16"]%string;
     mem_now := 100 |}.

(** A polled log filter that asks for topic 7 in the first position, and a
    polled block filter. *)
Definition topicSeven : LogFilter :=
  {| BlockHash := None; FromBlock := None; ToBlock := None;
     Addresses := []; Topics := [[7%N]]; Since := None |}.

Definition pollFilter : Filter :=
  {| ID := "0x1"; Type_ := FilterTypeLog;
     Parameters := LogFilterParameters topicSeven;
     LastPoll := 0; WsConn := None |}.

Definition pollStore : MemStorage :=
  {| mem_filters := [pollFilter; blockFilter "0x2"]; mem_now := 100 |}.

Definition emptyStore : MemStorage := {| mem_filters := []; mem_now := 100 |}.

Definition world0 {E} : World E := {| events := []; stdout := [] |}.

Definition plainEndpoints : EthEndpoints MemStorage :=
  sampleEndpoints (fixedLogsState [log0]) 6.

Definition failingEndpoints : EthEndpoints MemStorage :=
  sampleEndpoints failingState 6.

(** ** Traces *)

(** The state [w] followed by what [d] records. *)
Definition after {E} (w d : World E) : World E :=
  {| events := events w ++ events d; stdout := stdout w ++ stdout d |}.

(** A computation that only adds to the trace: started from [w] it returns
    what it returns from the empty state and appends what it records there. *)
Definition framed {E A} (m : Go E A) : Prop :=
  forall w, m w = ((m world0).1, after w (m world0).2).

(** What a trace hands to the connections: the filter and the payload of
    each [EnqueueSubscriptionDataToBeSent], in order. *)
Definition enqueued (evs : list WireEvent) : list (string * Data) :=
  omap (fun ev => match ev with
                  | Enqueue id data => Some (id, data)
                  | LogError _ => None
                  end) evs.


(** ** Registration and removal of filters *)

(** The value of the [interface{}] result of the registration endpoints: an
    identifier, a boolean or nil. *)
Inductive RpcValue :=
  | NilValue
  | BoolValue (b : bool)
  | StringValue (s : string).

Definition Reply : Type := RpcValue * option RPCError.

(** [RPCErrorResponse] for an endpoint that answers a [Reply]. *)
Definition RPCErrorReply (code : Z) (message : string) (err : option error)
    : Reply :=
  (NilValue, (RPCErrorResponse code message err).2).

Section Registration.

Context {S : Type}.

(** The methods of [storageInterface] that create and remove filters. *)
Variable storage_NewBlockFilter : option Z -> S -> result error string * S.
Variable storage_NewLogFilter :
  option Z -> LogFilter -> S -> result error string * S.
Variable storage_UninstallFilter : string -> S -> option error * S.
Variable storage_UninstallFilterByWSConn : option Z -> S -> option error * S.

(** [types.InvalidParamsErrorCode] and the text of an error ([err.Error()]),
    both declared outside this file. *)
Variable InvalidParamsErrorCode : Z.
Variable error_Error : error -> string.

Definition newBlockFilter (wsConn : option Z) (s : S) : Reply * S :=
  let '(id, s') := storage_NewBlockFilter wsConn s in
  match id with
  | Err err =>
      (RPCErrorReply DefaultErrorCode "failed to create new block filter" (Some err), s')
  | Ok id' => ((StringValue id', None), s')
  end.

Definition NewBlockFilter (s : S) : Reply * S := newBlockFilter None s.

Definition newFilter (wsConn : option Z) (filter : LogFilter) (s : S)
    : Reply * S :=
  let '(id, s') := storage_NewLogFilter wsConn filter s in
  match id with
  | Err err =>
      if errors_Is err ErrFilterInvalidPayload
      then (RPCErrorReply InvalidParamsErrorCode (error_Error err) None, s')
      else (RPCErrorReply DefaultErrorCode "failed to create new log filter" (Some err), s')
  | Ok id' => ((StringValue id', None), s')
  end.

Definition NewFilter (filter : LogFilter) (s : S) : Reply * S :=
  newFilter None filter s.

Definition newPendingTransactionFilter (wsConn : option Z) (s : S) : Reply * S :=
  ((NilValue, Some (NewRPCError DefaultErrorCode "not supported yet")), s).

Definition NewPendingTransactionFilter (s : S) : Reply * S :=
  newPendingTransactionFilter None s.

Definition UninstallFilter (filterID : string) (s : S) : Reply * S :=
  let '(err, s') := storage_UninstallFilter filterID s in
  match err with
  | Some err' =>
      if errors_Is err' ErrNotFound
      then ((BoolValue false, None), s')
      else (RPCErrorReply DefaultErrorCode "failed to uninstall filter" (Some err'), s')
  | None => ((BoolValue true, None), s')
  end.

(** [var lf LogFilter] is the zero value [anyLogs] unless a filter is given. *)
Definition Subscribe (wsConn : option Z) (name : string)
    (logFilter : option LogFilter) (s : S) : Reply * S :=
  if bool_decide (name = "newHeads"%string) then newBlockFilter wsConn s
  else if bool_decide (name = "logs"%string) then
    let lf := match logFilter with
              | Some lf' => lf'
              | None => anyLogs
              end in
    newFilter wsConn lf s
  else if bool_decide (name = "pendingTransactions"%string)
          || bool_decide (name = "newPendingTransactions"%string) then
    newPendingTransactionFilter wsConn s
  else if bool_decide (name = "syncing"%string) then
    ((NilValue, Some (NewRPCError DefaultErrorCode "not supported yet")), s)
  else
    ((NilValue, Some (NewRPCError DefaultErrorCode "invalid filter name")), s).

Definition Unsubscribe (wsConn : option Z) (filterID : string) (s : S)
    : Reply * S :=
  UninstallFilter filterID s.

Definition uninstallFilterByWSConn (wsConn : option Z) (s : S)
    : option error * S :=
  storage_UninstallFilterByWSConn wsConn s.

End Registration.

(** The in-memory store, continued: removal by identifier. Modelled from
    the spec as the rest of this store. *)
Definition mem_UninstallFilter (id : string) (s : MemStorage)
    : option error * MemStorage :=
  match List.find (fun f => bool_decide (ID f = id)) (mem_filters s) with
  | Some _ =>
      (None,
       {| mem_filters :=
            List.filter (fun f => negb (bool_decide (ID f = id))) (mem_filters s);
          mem_now := mem_now s |})
  | None => (Some ErrNotFound, s)
  end.

(** A store that refuses every registration. *)
Definition refuseBlockFilter (wsConn : option Z) (s : MemStorage)
    : result error string * MemStorage :=
  (Err (errorString "store is read-only"), s).

Definition refuseLogFilter (wsConn : option Z) (lf : LogFilter) (s : MemStorage)
    : result error string * MemStorage :=
  (Err (errorString "store is read-only"), s).

Definition sample_error_Error (err : error) : string :=
  match err with
  | ErrNotFound => "not found"
  | ErrFilterInvalidPayload => "invalid filter payload"
  | errorString msg => msg
  end.

Definition sample_Marshal_failing (l : RpcLog) : result error Data :=
  Err (errorString "unsupported value").

(** A log with two topics and a filter made of a wildcard slot followed by
    the slot of topic 9. *)
Definition twoTopicsLog : EthLog :=
  {| log_Address := 170%N; log_Topics := [1%N; 9%N]; log_Data := EmptyString;
     log_BlockNumber := 1; log_Index := 0 |}.

Definition wildcardNine : LogFilter :=
  {| BlockHash := None; FromBlock := None; ToBlock := None;
     Addresses := []; Topics := [[]; [9%N]]; Since := None |}.

Definition wildcardNinePadded : LogFilter :=
  {| BlockHash := None; FromBlock := None; ToBlock := None;
     Addresses := []; Topics := [[]; [9%N]; []; []]; Since := None |}.



(** Two polled block filters bound to connections, and sample encoders of
    the head notification. *)
Definition headStore : MemStorage :=
  {| mem_filters :=
       [{| ID := "h1"; Type_ := FilterTypeBlock; Parameters := NoParameters;
           LastPoll := 0; WsConn := Some 1 |};
        {| ID := "h2"; Type_ := FilterTypeBlock; Parameters := NoParameters;
           LastPoll := 0; WsConn := Some 2 |}];
     mem_now := 100 |}.


Definition sample_Marshal_block (b : Z) : result error Data :=
  Ok "head"%string.

Definition sample_NewBlock_failing (event : NewL2BlockEvent) : result error Z :=
  Err (errorString "no header").

(** Endpoints over a store that cannot write the last poll time. *)
Definition readOnlyStorage : storageInterface MemStorage :=
  {| GetFilter := mem_GetFilter;
     UpdateFilterLastPoll := fun _ s => (Some (errorString "store is read-only"), s);
     GetAllBlockFiltersWithWSConn := mem_withWSConn FilterTypeBlock;
     GetAllLogFiltersWithWSConn := mem_withWSConn FilterTypeLog |}.

Definition readOnlyEndpoints : EthEndpoints MemStorage :=
  {| pool := {| GetPendingTxHashesSince := fun _ => Ok [] |};
     state := fixedLogsState [log0];
     storage := readOnlyStorage;
     GetNumericBlockNumber := sampleResolve 6;
     NewDbTxScope := fun f => f tt |}.

(** The polled log filter after a poll, and with a stored [Since]. *)
Definition pollFilterLater : Filter :=
  {| ID := "0x1"; Type_ := FilterTypeLog;
     Parameters := LogFilterParameters (with_Since (Some 42) topicSeven);
     LastPoll := 100; WsConn := None |}.

Definition pollStoreLater : MemStorage :=
  {| mem_filters := [pollFilterLater; blockFilter "0x2"]; mem_now := 200 |}.

(** A chain state that has seen the blocks of hashes 11 and 12. *)
Definition twoBlocksState : StateInterface :=
  {| GetL2BlockHashesSince := fun _ => Ok [11%N; 12%N];
     state_GetLogs := fun _ _ _ _ _ _ => Ok [] |}.

(** * Properties *)

(** ** The [Go] monad *)

Lemma bind_ret_l {E A B} (a : A) (k : A -> Go E B) (w : World E) :
  bind (ret a) k w = k a w.
Proof. reflexivity. Qed.

Lemma bind_returned {E A B} (m : Go E A) (k : A -> Go E B) w a w' :
  m w = (Returned a, w') -> bind m k w = k a w'.
Proof. intros Hm. unfold bind. now rewrite Hm. Qed.

Lemma bind_panicked {E A B} (m : Go E A) (k : A -> Go E B) w v w' :
  m w = (Panicked v, w') -> bind m k w = (Panicked v, w').
Proof. intros Hm. unfold bind. now rewrite Hm. Qed.

Lemma recovered_returns {E} (body : Go E unit) (w : World E) :
  exists w', recovered body w = (Returned tt, w').
Proof.
  unfold recovered. destruct (body w) as [[[]|v] w']; eauto.
Qed.

(** ** LogMatcher *)

Lemma contains_elem_of {T} `{EqDecision T} (items : list T) (x : T) :
  contains items x = true <-> x ∈ items.
Proof.
  induction items as [|item rest IH]; simpl.
  - split; [discriminate | intros H'; inversion H'].
  - case_bool_decide as Heq.
    + subst. split; [intros _; left | reflexivity].
    + rewrite IH, elem_of_cons. split; [now right | intros [->|]; [congruence | assumption]].
Qed.

Lemma topicsLoop_spec (fuel i : nat) (filterTopics : list (list Hash))
    (logTopics : list Hash) :
  topicsLoop fuel i filterTopics logTopics = true <->
  forall (j : nat) (slot : list Hash),
    (i <= j < i + fuel)%nat -> filterTopics !! j = Some slot ->
    slot = [] \/ exists t, logTopics !! j = Some t /\ t ∈ slot.
Proof.
  revert i. induction fuel as [|fuel IH]; intros i; simpl.
  - split; [intros _ j slot Hj; lia | reflexivity].
  - destruct (filterTopics !! i) as [slot|] eqn:Hslot.
    + assert (Hstep : forall P : nat -> Prop,
                (forall j, (i <= j < i + S fuel)%nat -> P j) <->
                P i /\ forall j, (S i <= j < S i + fuel)%nat -> P j).
      { intros P. split.
        - intros HP. split; [apply HP; lia | intros j Hj; apply HP; lia].
        - intros [Hi HP] j Hj. destruct (decide (j = i)) as [->|]; [assumption|].
          apply HP. lia. }
      case_bool_decide as Hlen.
      * rewrite IH. split.
        -- intros Hrest j s Hj Hs. destruct (decide (j = i)) as [->|Hne].
           ++ left. rewrite Hslot in Hs. injection Hs as <-.
              now destruct slot.
           ++ apply Hrest; [lia | assumption].
        -- intros Hall j s Hj. apply Hall. lia.
      * destruct (logTopics !! i) as [t|] eqn:Ht.
        -- destruct (contains slot t) eqn:Hc.
           ++ rewrite IH. apply contains_elem_of in Hc. split.
              ** intros Hrest j s Hj Hs. destruct (decide (j = i)) as [->|Hne].
                 --- right. rewrite Hslot in Hs. injection Hs as <-. eauto.
                 --- apply Hrest; [lia | assumption].
              ** intros Hall j s Hj. apply Hall. lia.
           ++ split; [discriminate|]. intros Hall.
              destruct (Hall i slot ltac:(lia) Hslot) as [->|(t' & Ht' & Hin)].
              ** now contradiction Hlen.
              ** rewrite Ht in Ht'. injection Ht' as <-.
                 apply contains_elem_of in Hin. congruence.
        -- split; [discriminate|]. intros Hall.
           destruct (Hall i slot ltac:(lia) Hslot) as [->|(t' & Ht' & _)].
           ** now contradiction Hlen.
           ** congruence.
    + split; [|reflexivity]. intros _ j s Hj Hs.
      apply lookup_ge_None in Hslot. apply lookup_lt_Some in Hs. lia.
Qed.

Lemma logPasses_spec (spec : LogFilter) (l : EthLog) :
  logPasses spec l = true <-> Matches_ref spec l.
Proof.
  unfold logPasses, topicsMatch, Matches_ref.
  assert (Haddr :
    bool_decide (0 < length (Addresses spec))%nat
      && negb (contains (Addresses spec) (log_Address l)) = false <->
    Addresses spec = [] \/ log_Address l ∈ Addresses spec).
  { rewrite andb_false_iff, negb_false_iff, contains_elem_of, bool_decide_eq_false.
    destruct (Addresses spec); simpl; split; intros [H'|H']; auto; try lia;
      discriminate. }
  destruct (bool_decide (0 < length (Addresses spec))%nat
            && negb (contains (Addresses spec) (log_Address l))) eqn:Ha.
  - split; [discriminate|]. intros [H' _]. apply Haddr in H'. discriminate.
  - assert (Hok : Addresses spec = [] \/ log_Address l ∈ Addresses spec)
      by now apply Haddr.
    clear Ha Haddr.
    destruct (bool_decide (0 < length (Topics spec))%nat) eqn:Htop.
    + rewrite topicsLoop_spec. split.
      * intros Hall. split; [assumption|]. intros i slot Hi. apply Hall. lia.
      * intros [_ Hall] j slot Hj. apply Hall. lia.
    + apply bool_decide_eq_false in Htop.
      split; [|reflexivity]. intros _. split; [assumption|].
      intros i slot _ Hs. apply lookup_lt_Some in Hs. lia.
Qed.

Lemma filterLogsLoop_filter (logFilter : LogFilter) (logsToFilter : list EthLog)
    (logs : list RpcLog) :
  filterLogsLoop logFilter logsToFilter logs =
  logs ++ map NewLog (List.filter (logPasses logFilter) logsToFilter).
Proof.
  revert logs. induction logsToFilter as [|l rest IH]; intros logs; simpl.
  - now rewrite app_nil_r.
  - destruct (logPasses logFilter l); rewrite IH; [|reflexivity].
    now rewrite <- app_assoc.
Qed.

Lemma filterLogs_returns {E} (logsToFilter : list EthLog) (f : Filter)
    (spec : LogFilter) (w : World E) :
  Parameters f = LogFilterParameters spec ->
  filterLogs logsToFilter f w =
  (Returned (map NewLog (List.filter (logPasses spec) logsToFilter)), w).
Proof.
  intros Hp. unfold filterLogs. rewrite Hp. simpl.
  rewrite bind_ret_l. unfold ret. now rewrite filterLogsLoop_filter.
Qed.

(** With at most [maxTopics] slots in the filter, every slot it defines is
    examined. *)
Lemma Matches_ref_all_slots (spec : LogFilter) (l : EthLog) :
  (length (Topics spec) <= maxTopics)%nat ->
  Matches_ref spec l <->
  (Addresses spec = [] \/ log_Address l ∈ Addresses spec) /\
  forall (i : nat) (slot : list Hash), Topics spec !! i = Some slot ->
    slot = [] \/ exists t, log_Topics l !! i = Some t /\ t ∈ slot.
Proof.
  intros Hlen. unfold Matches_ref. split; intros [Ha Ht]; (split; [assumption|]).
  - intros i slot Hs. apply Ht; [|assumption]. apply lookup_lt_Some in Hs. lia.
  - intros i slot _. apply Ht.
Qed.

(** C3. [filterLogs] applied to a single log [l] under a filter holding the
    specification [spec] returns the log exactly when the reference
    definition holds: the address list is empty or contains the address of
    the log, and each topic position defined by the filter is a wildcard or
    holds a topic of the log that is in the slot. In particular the log is
    dropped when the address list is non-empty and lacks the address, and
    kept when the address list and the topic list are both empty. *)
Theorem filterLogs_single_log_reference {E} (spec : LogFilter) (l : EthLog)
    (f : Filter) (w : World E) :
  Parameters f = LogFilterParameters spec ->
  exists logs : list RpcLog,
    filterLogs [l] f w = (Returned logs, w) /\
    (logs = [NewLog l] <-> Matches_ref spec l) /\
    (logs = [] <-> ~ Matches_ref spec l) /\
    ((length (Topics spec) <= maxTopics)%nat ->
       logs = [NewLog l] <->
       (Addresses spec = [] \/ log_Address l ∈ Addresses spec) /\
       forall (i : nat) (slot : list Hash), Topics spec !! i = Some slot ->
         slot = [] \/ exists t, log_Topics l !! i = Some t /\ t ∈ slot) /\
    (Addresses spec <> [] -> log_Address l ∉ Addresses spec -> logs = []) /\
    (Addresses spec = [] -> Topics spec = [] -> logs = [NewLog l]).
Proof.
  intros Hp. rewrite (filterLogs_returns _ _ _ _ Hp). simpl.
  pose proof (logPasses_spec spec l) as Hspec.
  pose proof (Matches_ref_all_slots spec l) as Hall.
  destruct (logPasses spec l) eqn:Hpass; simpl;
    eexists; (split; [reflexivity|]).
  - assert (Hm : Matches_ref spec l) by now apply Hspec.
    split; [tauto|]. split; [split; [discriminate | tauto]|].
    split; [intros Hlen; specialize (Hall Hlen); tauto|].
    split; [|reflexivity].
    intros Hne Hnot. destruct Hm as [[Hnil|Hin] _]; contradiction.
  - assert (Hm : ~ Matches_ref spec l).
    { intros Hm. apply Hspec in Hm. discriminate. }
    split; [split; [discriminate | tauto]|]. split; [tauto|].
    split; [intros Hlen; specialize (Hall Hlen); split; [discriminate | tauto]|].
    split; [reflexivity|].
    intros Hnil Htop. exfalso. apply Hm. split; [now left|].
    intros i slot _ Hs. rewrite Htop in Hs. discriminate.
Qed.

Lemma filterLogs_single_log_reference_witness :
  exists logs : list RpcLog,
    filterLogs [log0] pollFilter (@world0 WireEvent) = (Returned logs, world0) /\
    (logs = [NewLog log0] <-> Matches_ref topicSeven log0) /\
    (logs = [] <-> ~ Matches_ref topicSeven log0) /\
    ((length (Topics topicSeven) <= maxTopics)%nat ->
       logs = [NewLog log0] <->
       (Addresses topicSeven = [] \/ log_Address log0 ∈ Addresses topicSeven) /\
       forall (i : nat) (slot : list Hash), Topics topicSeven !! i = Some slot ->
         slot = [] \/ exists t, log_Topics log0 !! i = Some t /\ t ∈ slot) /\
    (Addresses topicSeven <> [] -> log_Address log0 ∉ Addresses topicSeven ->
       logs = []) /\
    (Addresses topicSeven = [] -> Topics topicSeven = [] -> logs = [NewLog log0]).
Proof.
  apply (filterLogs_single_log_reference topicSeven log0 pollFilter world0).
  reflexivity.
Defined.

(** The matcher on the scenarios of the specification: a wildcard first
    slot, an address that is not listed, a log with too few topics. *)
Example wildcard_then_topic :
  logPasses {| BlockHash := None; FromBlock := None; ToBlock := None;
               Addresses := []; Topics := [[]; [9%N]]; Since := None |}
            {| log_Address := 170%N; log_Topics := [1%N; 9%N]; log_Data := EmptyString;
               log_BlockNumber := 1; log_Index := 0 |} = true.
Proof. reflexivity. Qed.

Example address_not_listed :
  logPasses {| BlockHash := None; FromBlock := None; ToBlock := None;
               Addresses := [170%N]; Topics := []; Since := None |}
            {| log_Address := 187%N; log_Topics := []; log_Data := EmptyString;
               log_BlockNumber := 1; log_Index := 0 |} = false.
Proof. reflexivity. Qed.

Example log_without_the_topic :
  logPasses {| BlockHash := None; FromBlock := None; ToBlock := None;
               Addresses := []; Topics := [[]; [9%N]]; Since := None |}
            {| log_Address := 170%N; log_Topics := [1%N]; log_Data := EmptyString;
               log_BlockNumber := 1; log_Index := 0 |} = false.
Proof. reflexivity. Qed.

(** A fifth slot lies beyond [maxTopics] and is not looked at. *)
Example fifth_slot_ignored :
  logPasses {| BlockHash := None; FromBlock := None; ToBlock := None;
               Addresses := []; Topics := [[]; []; []; []; [9%N]]; Since := None |}
            log0 = true.
Proof. reflexivity. Qed.

(** ** The partition of [parallelize] *)

Lemma jobSize_ceilDiv (n wc : nat) :
  (0 < wc)%nat ->
  (if bool_decide (Z.rem (Z.of_nat n) (Z.of_nat wc) > 0)
   then Z.quot (Z.of_nat n) (Z.of_nat wc) + 1
   else Z.quot (Z.of_nat n) (Z.of_nat wc)) = Z.of_nat (ceilDiv n wc).
Proof.
  intros Hwc. unfold ceilDiv.
  rewrite Z.rem_mod_nonneg, Z.quot_div_nonneg by lia.
  rewrite Nat2Z.inj_div.
  replace (Z.of_nat (n + wc - 1)) with (Z.of_nat n + Z.of_nat wc - 1) by lia.
  pose proof (Z.div_mod (Z.of_nat n) (Z.of_nat wc) ltac:(lia)) as Hdm.
  pose proof (Z.mod_pos_bound (Z.of_nat n) (Z.of_nat wc) ltac:(lia)) as Hb.
  set (q := Z.of_nat n / Z.of_nat wc) in *.
  set (r := Z.of_nat n mod Z.of_nat wc) in *.
  case_bool_decide as Hr.
  - apply (Z.div_unique _ _ _ (r - 1)); lia.
  - apply (Z.div_unique _ _ _ (Z.of_nat wc - 1)); lia.
Qed.

Lemma ceilDiv_covers (n wc : nat) :
  (0 < wc)%nat -> (n <= wc * ceilDiv n wc)%nat.
Proof.
  intros Hwc. unfold ceilDiv.
  pose proof (Nat.div_mod_eq (n + wc - 1) wc) as Hdm.
  pose proof (Nat.mod_upper_bound (n + wc - 1) wc ltac:(lia)) as Hb.
  lia.
Qed.

Lemma ceilDiv_pos (n wc : nat) :
  (0 < wc)%nat -> (0 < n)%nat -> (0 < ceilDiv n wc)%nat.
Proof.
  intros Hwc Hn. pose proof (ceilDiv_covers n wc Hwc).
  destruct (ceilDiv n wc); lia.
Qed.

Lemma slice_chunk {T E} (items : list T) (k jobSize : nat) (w : World E) :
  (0 < jobSize)%nat -> (k * jobSize <= length items)%nat ->
  slice items (Z.of_nat k * Z.of_nat jobSize)
    (if bool_decide ((Z.of_nat k + 1) * Z.of_nat jobSize > len items)
     then len items else (Z.of_nat k + 1) * Z.of_nat jobSize) w
  = (Returned (take jobSize (drop (k * jobSize) items)), w).
Proof.
  intros Hjs Hk. unfold slice, len.
  replace ((Z.of_nat k + 1) * Z.of_nat jobSize)
    with (Z.of_nat (k * jobSize + jobSize)) by lia.
  replace (Z.of_nat k * Z.of_nat jobSize) with (Z.of_nat (k * jobSize)) by lia.
  rewrite Nat2Z.id.
  destruct (decide (Z.of_nat (k * jobSize + jobSize) > Z.of_nat (length items)))
    as [Hend|Hend];
    [rewrite (bool_decide_eq_true_2 _ Hend) | rewrite (bool_decide_eq_false_2 _ Hend)].
  - rewrite bool_decide_eq_true_2 by lia. unfold ret. do 2 f_equal.
    rewrite !take_ge; [reflexivity | |]; rewrite length_drop; lia.
  - rewrite bool_decide_eq_true_2 by lia. unfold ret. do 3 f_equal. lia.
Qed.

Lemma spawnLoop_tasks {T E} (fuel k jobSize : nat) (items : list T)
    (fn : Z -> list T -> Go E unit) (w : World E) :
  (0 < jobSize)%nat ->
  spawnLoop fuel (Z.of_nat k) (Z.of_nat jobSize) items fn w
  = runTasks fn (tasksFrom fuel k jobSize items) w.
Proof.
  intros Hjs. revert k w. induction fuel as [|fuel IH]; intros k w; simpl.
  - reflexivity.
  - assert (Hmul : Z.of_nat k * Z.of_nat jobSize = Z.of_nat (k * jobSize)) by lia.
    destruct (decide (k * jobSize <= length items)%nat) as [Hk|Hk].
    + rewrite (bool_decide_eq_true_2 _ Hk).
      rewrite bool_decide_eq_false_2 by (unfold len; lia). simpl.
      erewrite bind_returned by (apply slice_chunk; assumption).
      unfold bind.
      destruct (recovered (fn (Z.of_nat k) (take jobSize (drop (k * jobSize) items))) w)
        as [[[]|v] w'] eqn:Hrec.
      * replace (Z.of_nat k + 1) with (Z.of_nat (S k)) by lia. apply IH.
      * destruct (recovered_returns
                    (fn (Z.of_nat k) (take jobSize (drop (k * jobSize) items))) w)
          as [w'' Hw'']. congruence.
    + rewrite (bool_decide_eq_false_2 _ Hk).
      rewrite bool_decide_eq_true_2 by (unfold len; lia).
      replace (Z.of_nat k + 1) with (Z.of_nat (S k)) by lia. apply IH.
Qed.

Lemma tasksFrom_past_end {T} (fuel k jobSize : nat) (items : list T) :
  (0 < jobSize)%nat -> (length items < k * jobSize)%nat ->
  tasksFrom fuel k jobSize items = [].
Proof.
  intros Hjs. revert k. induction fuel as [|fuel IH]; intros k Hk; simpl.
  - reflexivity.
  - rewrite bool_decide_eq_false_2 by lia. apply IH. lia.
Qed.

Lemma tasksFrom_lookup {T} (fuel k jobSize : nat) (items : list T) i task :
  (0 < jobSize)%nat ->
  tasksFrom fuel k jobSize items !! i = Some task ->
  task.1 = Z.of_nat (k + i)
  /\ task.2 = take jobSize (drop ((k + i) * jobSize) items)
  /\ ((k + i) * jobSize <= length items)%nat.
Proof.
  intros Hjs. revert k i. induction fuel as [|fuel IH]; intros k i; simpl.
  - discriminate.
  - case_bool_decide as Hk.
    + destruct i as [|i]; simpl.
      * intros [= <-]. simpl. rewrite Nat.add_0_r. auto.
      * intros Hi. apply IH in Hi.
        replace (k + S i)%nat with (S k + i)%nat by lia. exact Hi.
    + rewrite tasksFrom_past_end by lia. discriminate.
Qed.

Lemma tasksFrom_length {T} (fuel k jobSize : nat) (items : list T) :
  (length (tasksFrom fuel k jobSize items) <= fuel)%nat.
Proof.
  revert k. induction fuel as [|fuel IH]; intros k; simpl; [lia|].
  case_bool_decide; simpl; specialize (IH (S k)); lia.
Qed.

Lemma tasksFrom_concat {T} (fuel k jobSize : nat) (items : list T) :
  (0 < jobSize)%nat ->
  concat (tasksFrom fuel k jobSize items).*2
  = take (fuel * jobSize) (drop (k * jobSize) items).
Proof.
  intros Hjs. revert k. induction fuel as [|fuel IH]; intros k; simpl.
  - now rewrite take_0.
  - case_bool_decide as Hk.
    + simpl. rewrite IH. rewrite <- take_take_drop. f_equal.
      rewrite drop_drop. do 2 f_equal. lia.
    + rewrite tasksFrom_past_end by lia. simpl.
      rewrite drop_ge by lia. now rewrite take_nil.
Qed.

Lemma parallelize_tasks {T E} (maxWorkers : Z) (items : list T)
    (fn : Z -> list T -> Go E unit) (w : World E) :
  items <> [] -> 0 < maxWorkers ->
  let workersCount := (Z.to_nat maxWorkers `min` length items)%nat in
  parallelize maxWorkers items fn w
  = runTasks fn
      (tasksFrom workersCount 0 (ceilDiv (length items) workersCount) items) w.
Proof.
  intros Hne HW workersCount. unfold parallelize, len.
  assert (Hlen : (0 < length items)%nat) by (destruct items; simpl; [congruence | lia]).
  rewrite bool_decide_eq_false_2 by lia.
  set (wcZ := if bool_decide (maxWorkers > Z.of_nat (length items))
              then Z.of_nat (length items) else maxWorkers).
  assert (HwcZ : wcZ = Z.of_nat workersCount).
  { subst wcZ workersCount. case_bool_decide; lia. }
  rewrite HwcZ. rewrite bool_decide_eq_false_2 by (subst workersCount; lia).
  rewrite jobSize_ceilDiv by (subst workersCount; lia).
  rewrite Nat2Z.id. change 0 with (Z.of_nat 0).
  apply spawnLoop_tasks. apply ceilDiv_pos; subst workersCount; lia.
Qed.

Lemma runTasks_foldl {T E} (fn : Z -> list T -> Go E unit)
    (tasks : list (Z * list T)) (w : World E) :
  runTasks fn tasks w = (Returned tt, foldl (taskEffect fn) w tasks).
Proof.
  revert w. induction tasks as [|[worker jobItems] more IH]; intros w; simpl.
  - reflexivity.
  - unfold bind, recovered, taskEffect at 2. simpl.
    destruct (fn worker jobItems w) as [[[]|v] w']; apply IH.
Qed.

(** The products computed by the loop stay below twice the length of the
    list, hence inside the range of a 64-bit [int]. *)
Lemma parallelize_range_bound (n wc k : nat) :
  (0 < wc <= n)%nat -> (k < wc)%nat ->
  ((k + 1) * ceilDiv n wc < 2 * n)%nat.
Proof.
  intros Hwc Hk. unfold ceilDiv.
  pose proof (Nat.div_mod_eq (n + wc - 1) wc) as Hdm.
  set (q := ((n + wc - 1) / wc)%nat) in *.
  assert (Hq : (wc * q <= n + wc - 1)%nat) by lia.
  assert (Hkq : ((k + 1) * q <= wc * q)%nat) by (apply Nat.mul_le_mono_r; lia).
  lia.
Qed.

(** C4. For a non-empty list of [N] items and a worker limit [W > 0],
    [parallelize] runs the function once on each chunk of a list of tasks:
    task [k] is given worker number [k] and the contiguous chunk that starts
    at position [k * jobSize] and has [jobSize = ceil (N / min W N)] items
    (fewer for the last one); the chunks put end to end are the original
    list, so every item is handed over exactly once, and there are at most
    [W] tasks. *)
Theorem parallelize_partition {T} (maxWorkers : Z) (items : list T) :
  items <> [] -> 0 < maxWorkers ->
  let jobSize :=
    ceilDiv (length items) (Z.to_nat maxWorkers `min` length items) in
  exists tasks : list (Z * list T),
    (forall E (fn : Z -> list T -> Go E unit) (w : World E),
       parallelize maxWorkers items fn w = runTasks fn tasks w) /\
    (forall k task, tasks !! k = Some task ->
       task.1 = Z.of_nat k /\
       task.2 = take jobSize (drop (k * jobSize) items)) /\
    (forall k task, tasks !! k = Some task -> (S k < length tasks)%nat ->
       length task.2 = jobSize) /\
    (forall k task, tasks !! k = Some task -> (length task.2 <= jobSize)%nat) /\
    concat tasks.*2 = items /\
    Z.of_nat (length tasks) <= maxWorkers.
Proof.
  intros Hne HW jobSize.
  set (workersCount := (Z.to_nat maxWorkers `min` length items)%nat) in *.
  assert (Hlen : (0 < length items)%nat) by (destruct items; simpl; [congruence | lia]).
  assert (Hwc : (0 < workersCount)%nat) by (subst workersCount; lia).
  assert (Hjs : (0 < jobSize)%nat) by (apply ceilDiv_pos; assumption).
  exists (tasksFrom workersCount 0 jobSize items).
  split; [intros E fn w; now apply parallelize_tasks|].
  split; [intros k task Hk; apply tasksFrom_lookup in Hk; tauto|].
  split.
  { intros k task Hk Hnext.
    destruct (lookup_lt_is_Some_2 _ _ Hnext) as [next Hn].
    apply tasksFrom_lookup in Hk, Hn; try assumption. simpl in Hk, Hn.
    destruct Hk as (_ & -> & _). destruct Hn as (_ & _ & Hn).
    rewrite length_take, length_drop. lia. }
  split.
  { intros k task Hk. apply tasksFrom_lookup in Hk; [|assumption].
    destruct Hk as (_ & -> & _). rewrite length_take. lia. }
  split.
  { rewrite tasksFrom_concat by assumption. simpl. rewrite drop_0.
    apply take_ge. pose proof (ceilDiv_covers (length items) workersCount Hwc).
    fold jobSize in H. lia. }
  pose proof (tasksFrom_length workersCount 0 jobSize items).
  subst workersCount. lia.
Qed.

Lemma parallelize_partition_witness :
  exists tasks : list (Z * list nat),
    (forall E (fn : Z -> list nat -> Go E unit) (w : World E),
       parallelize 2 [10; 20; 30]%nat fn w = runTasks fn tasks w) /\
    (forall k task, tasks !! k = Some task ->
       task.1 = Z.of_nat k /\
       task.2 = take 2 (drop (k * 2) [10; 20; 30]%nat)) /\
    (forall k task, tasks !! k = Some task -> (S k < length tasks)%nat ->
       length task.2 = 2%nat) /\
    (forall k task, tasks !! k = Some task -> (length task.2 <= 2)%nat) /\
    concat tasks.*2 = [10; 20; 30]%nat /\
    Z.of_nat (length tasks) <= 2.
Proof.
  apply (parallelize_partition 2 [10; 20; 30]%nat); [discriminate | lia].
Defined.

(** The partition on a small input, by evaluation: three items and two
    workers give the chunks of sizes two and one. *)
Example parallelize_three_items :
  parallelize 2 ["a"; "b"; "c"]%string (fun worker chunk => tell (worker, chunk)) world0
  = (Returned tt,
     {| events := [(0, ["a"; "b"]%string); (1, ["c"]%string)]; stdout := [] |}).
Proof. reflexivity. Qed.

(** Eighteen items and sixteen workers: nine chunks of two, and a tenth,
    empty chunk for the worker whose range starts at the end of the list. *)
Example parallelize_eighteen_items :
  (parallelize 16 (seq 0 18) (fun worker chunk => tell (worker, length chunk)) world0).2
  = {| events := [(0, 2%nat); (1, 2%nat); (2, 2%nat); (3, 2%nat); (4, 2%nat);
                  (5, 2%nat); (6, 2%nat); (7, 2%nat); (8, 2%nat); (9, 0%nat)];
       stdout := [] |}.
Proof. vm_compute. reflexivity. Qed.

(** ** Recovery *)

(** C5. A panic of the function on one chunk stops in the task of that
    chunk, where its value is printed: [parallelize] returns normally
    whatever the function does, and its final state is obtained by running
    the function on every chunk of the partition, each from the state left
    by the tasks before it, whether or not those panicked. *)
Theorem parallelize_isolates_panics {T E} (maxWorkers : Z) (items : list T)
    (fn : Z -> list T -> Go E unit) (w : World E) :
  0 < maxWorkers ->
  exists tasks : list (Z * list T),
    concat tasks.*2 = items /\
    parallelize maxWorkers items fn w
    = (Returned tt, foldl (taskEffect fn) w tasks).
Proof.
  intros HW. destruct items as [|x items].
  - exists []. split; reflexivity.
  - set (workersCount := (Z.to_nat maxWorkers `min` length (x :: items))%nat).
    set (jobSize := ceilDiv (length (x :: items)) workersCount).
    assert (Hwc : (0 < workersCount)%nat) by (subst workersCount; simpl; lia).
    assert (Hjs : (0 < jobSize)%nat) by (apply ceilDiv_pos; simpl; lia).
    exists (tasksFrom workersCount 0 jobSize (x :: items)). split.
    + rewrite tasksFrom_concat by assumption. rewrite drop_0.
      apply take_ge.
      pose proof (ceilDiv_covers (length (x :: items)) workersCount Hwc).
      fold jobSize in H. lia.
    + rewrite parallelize_tasks by (try discriminate; assumption).
      apply runTasks_foldl.
Qed.

Lemma parallelize_isolates_panics_witness :
  exists tasks : list (Z * list Filter),
    concat tasks.*2 = [brokenSubscription "bad"; subscription "good" anyLogs] /\
    parallelize 16 [brokenSubscription "bad"; subscription "good" anyLogs]
      (notifyNewLogs_fn plainEndpoints sample_Marshal block6) world0
    = (Returned tt,
       foldl (taskEffect (notifyNewLogs_fn plainEndpoints sample_Marshal block6))
         world0 tasks).
Proof.
  apply (parallelize_isolates_panics 16
           [brokenSubscription "bad"; subscription "good" anyLogs]).
  lia.
Defined.

(** The same run, evaluated: the first chunk panics on the type assertion,
    the panic value is printed, and the second chunk is notified. *)
Example panic_in_first_chunk :
  parallelize 16 [brokenSubscription "bad"; subscription "good" anyLogs]
    (notifyNewLogs_fn plainEndpoints sample_Marshal block6) world0
  = (Returned tt,
     {| events := [Enqueue "good" "log0"];
        stdout := ["interface conversion: interface {} is nil, not jsonrpc.LogFilter"] |}).
Proof. vm_compute. reflexivity. Qed.

Lemma parallelize_returns {T E} (maxWorkers : Z) (items : list T)
    (fn : Z -> list T -> Go E unit) (w : World E) :
  0 < maxWorkers ->
  exists w', parallelize maxWorkers items fn w = (Returned tt, w').
Proof.
  intros HW. destruct items as [|x items].
  - exists w. reflexivity.
  - rewrite parallelize_tasks by (try discriminate; assumption).
    rewrite runTasks_foldl. eauto.
Qed.

(** The log notifier of the event hook returns normally whatever the stored
    filters are. *)
Lemma notifyNewLogs_returns {S} (e : EthEndpoints S)
    (json_Marshal : RpcLog -> result error Data) (event : NewL2BlockEvent)
    (s : S) (w : World WireEvent) :
  exists w', notifyNewLogs e json_Marshal event s w = (Returned tt, w').
Proof. unfold notifyNewLogs. apply parallelize_returns. lia. Qed.

(** ** The pre-filter skip test *)

Lemma world_eta {E} (w : World E) :
  {| events := events w ++ []; stdout := stdout w |} = w.
Proof. destruct w. simpl. now rewrite app_nil_r. Qed.

(** C7. Under a filter holding a log specification, and when the block
    numbers of the [FromBlock] and [ToBlock] that are set can be resolved,
    the skip test returns without any effect, and it rejects the filter
    exactly when the filter has a block hash that differs from the hash of
    the event block, or it has no block hash and its resolved [FromBlock] is
    greater than the number of the event block, or (again without block
    hash) its resolved [ToBlock] is less than that number. *)
Theorem shouldSkipLogFilter_iff {S} (e : EthEndpoints S)
    (event : NewL2BlockEvent) (filter : Filter) (lf : LogFilter)
    (w : World WireEvent) :
  Parameters filter = LogFilterParameters lf ->
  (forall n, FromBlock lf = Some n ->
     exists v, GetNumericBlockNumber e (Some n) = Ok v) ->
  (forall n, ToBlock lf = Some n ->
     exists v, GetNumericBlockNumber e (Some n) = Ok v) ->
  exists skip : bool,
    shouldSkipLogFilter e event filter w = (Returned skip, w) /\
    (skip = true <->
       (exists bh, BlockHash lf = Some bh /\ bh <> Block_Hash event)
       \/ (BlockHash lf = None /\
           exists n fromBlock, FromBlock lf = Some n /\
             GetNumericBlockNumber e (Some n) = Ok fromBlock /\
             fromBlock > Block_NumberU64 event)
       \/ (BlockHash lf = None /\
           exists n toBlock, ToBlock lf = Some n /\
             GetNumericBlockNumber e (Some n) = Ok toBlock /\
             toBlock < Block_NumberU64 event)).
Proof.
  intros Hp Hfrom Hto. unfold shouldSkipLogFilter. rewrite Hp. simpl.
  rewrite bind_ret_l.
  destruct (BlockHash lf) as [bh|] eqn:Hbh.
  - case_bool_decide as Hne; eexists; (split; [reflexivity|]).
    + split; [|reflexivity]. intros _. left. eauto.
    + split; [discriminate|].
      intros [(bh' & [= <-] & Hd)|[[? _]|[? _]]]; [contradiction | discriminate..].
  - destruct (FromBlock lf) as [n|] eqn:Hf.
    + destruct (Hfrom n eq_refl) as [fromBlock Hrf]. rewrite Hrf, bind_ret_l.
      case_bool_decide as Hlt.
      * eexists. split; [reflexivity|]. split; [|reflexivity]. intros _.
        right; left. split; [reflexivity|]. exists n, fromBlock.
        repeat split; [assumption | lia].
      * destruct (ToBlock lf) as [m|] eqn:Ht.
        -- destruct (Hto m eq_refl) as [toBlock Hrt]. rewrite Hrt.
           eexists. split; [reflexivity|]. rewrite bool_decide_eq_true. split.
           ++ intros Hgt. right; right. split; [reflexivity|].
              exists m, toBlock. repeat split; [assumption | lia].
           ++ intros [(? & [=] & _)|[(_ & n' & f' & [= <-] & Hr' & Hgt)
                                    |(_ & m' & t' & [= <-] & Hr' & Hgt)]].
              ** rewrite Hrf in Hr'. injection Hr' as <-. lia.
              ** rewrite Hrt in Hr'. injection Hr' as <-. lia.
        -- eexists. split; [reflexivity|]. split; [discriminate|].
           intros [(? & [=] & _)|[(_ & n' & f' & [= <-] & Hr' & Hgt)
                                 |(_ & m' & t' & [=] & _)]].
           rewrite Hrf in Hr'. injection Hr' as <-. lia.
    + rewrite bind_ret_l.
      destruct (ToBlock lf) as [m|] eqn:Ht.
      * destruct (Hto m eq_refl) as [toBlock Hrt]. rewrite Hrt.
        eexists. split; [reflexivity|]. rewrite bool_decide_eq_true. split.
        -- intros Hgt. right; right. split; [reflexivity|].
           exists m, toBlock. repeat split; [assumption | lia].
        -- intros [(? & [=] & _)|[(_ & n' & f' & [=] & _)
                                 |(_ & m' & t' & [= <-] & Hr' & Hgt)]].
           rewrite Hrt in Hr'. injection Hr' as <-. lia.
      * eexists. split; [reflexivity|]. split; [discriminate|].
        intros [(? & [=] & _)|[(_ & n' & f' & [=] & _)|(_ & m' & t' & [=] & _)]].
Qed.

Lemma shouldSkipLogFilter_iff_witness :
  exists skip : bool,
    shouldSkipLogFilter plainEndpoints block6
      (subscription "f" (blockRange (Some 7) (Some 9))) world0
    = (Returned skip, world0) /\
    (skip = true <->
       (exists bh, BlockHash (blockRange (Some 7) (Some 9)) = Some bh /\
                   bh <> Block_Hash block6)
       \/ (BlockHash (blockRange (Some 7) (Some 9)) = None /\
           exists n fromBlock, FromBlock (blockRange (Some 7) (Some 9)) = Some n /\
             GetNumericBlockNumber plainEndpoints (Some n) = Ok fromBlock /\
             fromBlock > Block_NumberU64 block6)
       \/ (BlockHash (blockRange (Some 7) (Some 9)) = None /\
           exists n toBlock, ToBlock (blockRange (Some 7) (Some 9)) = Some n /\
             GetNumericBlockNumber plainEndpoints (Some n) = Ok toBlock /\
             toBlock < Block_NumberU64 block6)).
Proof.
  apply (shouldSkipLogFilter_iff plainEndpoints block6
           (subscription "f" (blockRange (Some 7) (Some 9)))
           (blockRange (Some 7) (Some 9)) world0).
  - reflexivity.
  - intros n [= <-]. eexists. reflexivity.
  - intros n [= <-]. eexists. reflexivity.
Defined.

(** A filter pinned to the block of hash 5 is skipped for block 6, and a
    filter pinned to the hash of the event block is examined whatever its
    range says. *)
Example skip_other_block_hash :
  shouldSkipLogFilter plainEndpoints block6
    (subscription "f00" (onlyBlockHash 5%N)) world0 = (Returned true, world0).
Proof. reflexivity. Qed.

Example block_hash_ignores_range :
  shouldSkipLogFilter plainEndpoints block6
    (subscription "f"
       {| BlockHash := Some 6%N; FromBlock := None; ToBlock := Some 3;
          Addresses := []; Topics := []; Since := None |}) world0
  = (Returned false, world0).
Proof. reflexivity. Qed.

(** The function of [notifyNewLogs] leaves its chunk at the first filter
    that the skip test rejects. *)
Lemma notifyNewLogs_fn_stops_at_skip {S} (e : EthEndpoints S)
    (json_Marshal : RpcLog -> result error Data) (event : NewL2BlockEvent)
    (worker : Z) (filter : Filter) (rest : list Filter) (w w' : World WireEvent) :
  shouldSkipLogFilter e event filter w = (Returned true, w') ->
  notifyNewLogs_fn e json_Marshal event worker (filter :: rest) w
  = (Returned tt, w').
Proof.
  intros Hskip. simpl. now rewrite (bind_returned _ _ _ _ _ Hskip).
Qed.



(** C10. When the filter has no block hash and the block number of its
    [FromBlock] or of its [ToBlock] cannot be resolved, the skip test
    answers true; at most lines of the error log are written, nothing is
    enqueued, and the function that notifies the chunk returns normally. *)
Theorem shouldSkipLogFilter_resolution_failure {S} (e : EthEndpoints S)
    (json_Marshal : RpcLog -> result error Data) (event : NewL2BlockEvent)
    (worker : Z) (filter : Filter) (lf : LogFilter) (rest : list Filter)
    (w : World WireEvent) :
  Parameters filter = LogFilterParameters lf ->
  BlockHash lf = None ->
  (exists n rpcErr, FromBlock lf = Some n /\
      GetNumericBlockNumber e (Some n) = Err rpcErr)
  \/ (exists n rpcErr, ToBlock lf = Some n /\
      GetNumericBlockNumber e (Some n) = Err rpcErr) ->
  exists msgs : list string,
    let w' := {| events := events w ++ map LogError msgs; stdout := stdout w |} in
    shouldSkipLogFilter e event filter w = (Returned true, w') /\
    notifyNewLogs_fn e json_Marshal event worker (filter :: rest) w
    = (Returned tt, w').
Proof.
  intros Hp Hbh Hfail.
  assert (Hskip : exists msgs : list string,
    shouldSkipLogFilter e event filter w
    = (Returned true,
       {| events := events w ++ map LogError msgs; stdout := stdout w |})).
  { unfold shouldSkipLogFilter. rewrite Hp. simpl. rewrite bind_ret_l, Hbh.
    destruct (FromBlock lf) as [n|] eqn:Hf.
    - destruct (GetNumericBlockNumber e (Some n)) as [fromBlock|rpcErr] eqn:Hrf.
      + rewrite bind_ret_l. case_bool_decide as Hlt.
        * exists []. simpl. unfold ret. now rewrite world_eta.
        * destruct Hfail as [(n' & err & [= <-] & Hr)|(m & err & Ht & Hr)];
            [congruence|].
          rewrite Ht, Hr. eexists [_]. reflexivity.
      + eexists [_]. reflexivity.
    - rewrite bind_ret_l.
      destruct Hfail as [(n' & err & [=] & _)|(m & err & Ht & Hr)].
      rewrite Ht, Hr. eexists [_]. reflexivity. }
  destruct Hskip as [msgs Hskip]. exists msgs. simpl. split; [assumption|].
  now apply notifyNewLogs_fn_stops_at_skip.
Qed.

Lemma shouldSkipLogFilter_resolution_failure_witness :
  exists msgs : list string,
    let w' := {| events := events (@world0 WireEvent) ++ map LogError msgs;
                 stdout := stdout (@world0 WireEvent) |} in
    shouldSkipLogFilter plainEndpoints block6
      (subscription "f" (blockRange (Some (-7)) None)) world0
    = (Returned true, w') /\
    notifyNewLogs_fn plainEndpoints sample_Marshal block6 0
      (subscription "f" (blockRange (Some (-7)) None)
       :: [subscription "g" anyLogs]) world0
    = (Returned tt, w').
Proof.
  apply (shouldSkipLogFilter_resolution_failure plainEndpoints sample_Marshal
           block6 0 (subscription "f" (blockRange (Some (-7)) None))
           (blockRange (Some (-7)) None) [subscription "g" anyLogs] world0).
  - reflexivity.
  - reflexivity.
  - left. exists (-7), (NewRPCError DefaultErrorCode "state is not synchronized").
    split; reflexivity.
Defined.

(** ** Log fan-out *)

(** C1, on the code. Seventeen subscriptions and sixteen workers: the first
    two filters share a chunk. The first is rejected by the skip test; the
    second passes it and matches the log of the event, and yet nothing is
    enqueued for it, while the filters of the other chunks are notified. *)
Theorem notifyNewLogs_skip_ends_chunk :
  shouldSkipLogFilter plainEndpoints block6 (subscription "f00" (onlyBlockHash 5%N))
    world0 = (Returned true, world0) /\
  shouldSkipLogFilter plainEndpoints block6 (subscription "f01" anyLogs) world0
    = (Returned false, world0) /\
  filterLogs (Logs block6) (subscription "f01" anyLogs) (@world0 WireEvent)
    = (Returned [NewLog log0], world0) /\
  notifyNewLogs plainEndpoints sample_Marshal block6 seventeen world0
    = (Returned tt,
       {| events :=
            map (fun id => Enqueue id "log0")
              ["f02"; "f03"; "f04"; "f05"; "f06"; "f07"; "f08"; "f09";
               "f10"; "f11"; "f12"; "f13"; "f14"; "f15"; "f16"]%string;
          stdout := [] |}).
Proof. repeat split; vm_compute; reflexivity. Qed.

(** ** Polling *)

Lemma internalGetLogs_ok {S} (e : EthEndpoints S) (filter : LogFilter)
    (fromBlock toBlock : Z) (logs : list EthLog) :
  match FromBlock filter with
  | Some _ => GetNumericBlockNumber e (FromBlock filter)
  | None => Ok 0
  end = Ok fromBlock ->
  GetNumericBlockNumber e (ToBlock filter) = Ok toBlock ->
  state_GetLogs (state e) fromBlock toBlock (Addresses filter) (Topics filter)
    (BlockHash filter) (Since filter) = Ok logs ->
  internalGetLogs e filter = (LogsResult (map NewLog logs), None).
Proof.
  intros Hf Ht Hl. unfold internalGetLogs. now rewrite Hf, Ht, Hl.
Qed.

(** C2, as the code has it. For a log filter, [GetFilterChanges] hands the
    topics of the filter to the chain state, together with the resolved
    range, the addresses, the block hash and the last poll time, and
    answers the logs the chain state returns, one for one and in order
    (nil when there are none): the log matcher is not run on them. *)
Theorem GetFilterChanges_returns_collaborator_logs {S} (e : EthEndpoints S)
    (id : string) (s : S) (f : Filter) (lf : LogFilter)
    (fromBlock toBlock : Z) (logs : list EthLog) :
  GetFilter (storage e) id s = Ok f ->
  Type_ f = FilterTypeLog ->
  Parameters f = LogFilterParameters lf ->
  match FromBlock lf with
  | Some _ => GetNumericBlockNumber e (FromBlock lf)
  | None => Ok 0
  end = Ok fromBlock ->
  GetNumericBlockNumber e (ToBlock lf) = Ok toBlock ->
  state_GetLogs (state e) fromBlock toBlock (Addresses lf) (Topics lf)
    (BlockHash lf) (Some (LastPoll f)) = Ok logs ->
  (updateFilterLastPoll e (ID f) s).1 = None ->
  GetFilterChanges e id s
  = (Returned (match logs with
               | [] => Nil
               | _ :: _ => LogsResult (map NewLog logs)
               end, None),
     (updateFilterLastPoll e (ID f) s).2).
Proof.
  intros Hg Hty Hp Hf Ht Hl Hu. unfold GetFilterChanges.
  rewrite Hg, Hty, Hp.
  rewrite (internalGetLogs_ok e (with_Since (Some (LastPoll f)) lf)
             fromBlock toBlock logs Hf Ht Hl).
  destruct (updateFilterLastPoll e (ID f) s) as [rpcErr s'].
  simpl in Hu. subst rpcErr. simpl.
  destruct logs; reflexivity.
Qed.

Lemma GetFilterChanges_returns_collaborator_logs_witness :
  GetFilterChanges plainEndpoints "0x1" pollStore
  = (Returned (LogsResult (map NewLog [log0]), None),
     (updateFilterLastPoll plainEndpoints (ID pollFilter) pollStore).2).
Proof.
  apply (GetFilterChanges_returns_collaborator_logs plainEndpoints "0x1"
           pollStore pollFilter topicSeven 0 6 [log0]); reflexivity.
Defined.

(** C2, as stated, fails: a chain state that does not look at the topics
    answers a log whose first topic is 1 to a filter that asks for topic 7,
    and [GetFilterChanges] returns that log. *)
Lemma GetFilterChanges_returns_unmatched_log :
  ~ (forall (e : EthEndpoints MemStorage) (id : string) (s s' : MemStorage)
            (f : Filter) (lf : LogFilter) (logs : list RpcLog),
       GetFilter (storage e) id s = Ok f ->
       Type_ f = FilterTypeLog ->
       Parameters f = LogFilterParameters lf ->
       GetFilterChanges e id s = (Returned (LogsResult logs, None), s') ->
       forall l, NewLog l ∈ logs -> topicsMatch lf l = true).
Proof.
  intros Hclaim.
  specialize (Hclaim plainEndpoints "0x1"%string pollStore
                (updateFilterLastPoll plainEndpoints "0x1" pollStore).2
                pollFilter topicSeven [NewLog log0]
                eq_refl eq_refl eq_refl eq_refl log0).
  assert (Hin : NewLog log0 ∈ [NewLog log0]) by apply list_elem_of_here.
  specialize (Hclaim Hin). vm_compute in Hclaim. discriminate.
Qed.

(** C6. In each branch of [GetFilterChanges], when the retrieval of the
    data answers an error, the operation returns an error (the very error
    of the log query in the log branch) and the store, hence the last poll
    time of the filter, is the one it started from. *)
Theorem GetFilterChanges_error_keeps_LastPoll {S} (e : EthEndpoints S)
    (id : string) (s : S) (f : Filter) :
  GetFilter (storage e) id s = Ok f ->
  (Type_ f = FilterTypeBlock /\
     exists err, GetL2BlockHashesSince (state e) (LastPoll f) = Err err)
  \/ (Type_ f = FilterTypePendingTx /\
     exists err, GetPendingTxHashesSince (pool e) (LastPoll f) = Err err)
  \/ (Type_ f = FilterTypeLog /\
     exists lf, Parameters f = LogFilterParameters lf /\
       (internalGetLogs e (with_Since (Some (LastPoll f)) lf)).2 <> None) ->
  exists rpcErr : RPCError,
    GetFilterChanges e id s = (Returned (Nil, Some rpcErr), s) /\
    (forall lf, Type_ f = FilterTypeLog ->
       Parameters f = LogFilterParameters lf ->
       (internalGetLogs e (with_Since (Some (LastPoll f)) lf)).2 = Some rpcErr).
Proof.
  intros Hg Hfail. unfold GetFilterChanges. rewrite Hg.
  destruct Hfail as [(Hty & err & Herr)|[(Hty & err & Herr)
                                        |(Hty & lf & Hp & Herr)]];
    rewrite Hty.
  - rewrite Herr. eexists. split; [reflexivity|]. intros lf [=].
  - rewrite Herr. eexists. split; [reflexivity|]. intros lf [=].
  - rewrite Hp.
    destruct (internalGetLogs e (with_Since (Some (LastPoll f)) lf))
      as [res [rpcErr|]] eqn:Hlogs; [|now contradiction Herr].
    exists rpcErr. split; [reflexivity|].
    intros lf' _ [= <-]. now rewrite Hlogs.
Qed.

Lemma GetFilterChanges_error_keeps_LastPoll_witness :
  exists rpcErr : RPCError,
    GetFilterChanges failingEndpoints "0x2" pollStore
    = (Returned (Nil, Some rpcErr), pollStore) /\
    (forall lf, Type_ (blockFilter "0x2") = FilterTypeLog ->
       Parameters (blockFilter "0x2") = LogFilterParameters lf ->
       (internalGetLogs failingEndpoints
          (with_Since (Some (LastPoll (blockFilter "0x2"))) lf)).2 = Some rpcErr).
Proof.
  apply (GetFilterChanges_error_keeps_LastPoll failingEndpoints "0x2"
           pollStore (blockFilter "0x2")).
  - reflexivity.
  - left. split; [reflexivity|]. eexists. reflexivity.
Defined.

(** The log branch on a failing chain state: the error of the log query
    comes back and the store is untouched. *)
Example GetFilterChanges_log_query_fails :
  GetFilterChanges failingEndpoints "0x1" pollStore
  = (Returned (Nil, Some (NewRPCError DefaultErrorCode "failed to get logs from state")),
     pollStore).
Proof. reflexivity. Qed.

(** On success the cursor moves: the store is the one left by
    [updateFilterLastPoll]. *)
Example GetFilterChanges_success_moves_cursor :
  (GetFilterChanges plainEndpoints "0x1" pollStore).2
  = {| mem_filters := [with_LastPoll 100 pollFilter; blockFilter "0x2"];
       mem_now := 100 |}.
Proof. reflexivity. Qed.

(** C8, as the code has it. With an ID unknown to the store,
    [GetFilterChanges] fails with the error "filter not found", and
    [GetFilterLogs] answers a nil result without error; neither touches the
    store. *)
Theorem unknown_filter_id {S} (e : EthEndpoints S) (id : string) (s : S) :
  GetFilter (storage e) id s = Err ErrNotFound ->
  GetFilterChanges e id s
  = (Returned (Nil, Some (NewRPCError DefaultErrorCode "filter not found")), s)
  /\ GetFilterLogs e id s = (Returned (Nil, None), s).
Proof.
  intros Hg. unfold GetFilterChanges, GetFilterLogs. rewrite Hg.
  split; reflexivity.
Qed.

Lemma unknown_filter_id_witness :
  GetFilterChanges plainEndpoints "0x9" emptyStore
  = (Returned (Nil, Some (NewRPCError DefaultErrorCode "filter not found")),
     emptyStore)
  /\ GetFilterLogs plainEndpoints "0x9" emptyStore
     = (Returned (Nil, None), emptyStore).
Proof.
  apply (unknown_filter_id plainEndpoints "0x9" emptyStore). reflexivity.
Defined.

(** C8, as stated, fails: [GetFilterLogs] does not fail on an unknown ID. *)
Lemma GetFilterLogs_unknown_id_no_error :
  ~ (forall (e : EthEndpoints MemStorage) (id : string) (s : MemStorage),
       GetFilter (storage e) id s = Err ErrNotFound ->
       (exists res rpcErr s',
          GetFilterChanges e id s = (Returned (res, Some rpcErr), s')) /\
       (exists res rpcErr s',
          GetFilterLogs e id s = (Returned (res, Some rpcErr), s'))).
Proof.
  intros Hclaim.
  destruct (Hclaim plainEndpoints "0x9"%string emptyStore eq_refl)
    as [_ (res & rpcErr & s' & Hlogs)].
  vm_compute in Hlogs. discriminate.
Qed.

(** C9. For the ID of a stored filter whose type is not [FilterTypeLog],
    [GetFilterLogs] answers a nil result without error and leaves the store
    as it was. *)
Theorem GetFilterLogs_other_type {S} (e : EthEndpoints S) (id : string)
    (s : S) (f : Filter) :
  GetFilter (storage e) id s = Ok f ->
  Type_ f <> FilterTypeLog ->
  GetFilterLogs e id s = (Returned (Nil, None), s).
Proof.
  intros Hg Hty. unfold GetFilterLogs. rewrite Hg.
  now rewrite bool_decide_eq_false_2.
Qed.

Lemma GetFilterLogs_other_type_witness :
  GetFilterLogs plainEndpoints "0x2" pollStore = (Returned (Nil, None), pollStore).
Proof.
  apply (GetFilterLogs_other_type plainEndpoints "0x2" pollStore (blockFilter "0x2")).
  - reflexivity.
  - discriminate.
Defined.

(** * Further properties of the code *)

(** ** The matcher on lists of logs *)

(** X1. [contains] answers true exactly for the items of the list. *)
Theorem contains_iff_In {T} `{EqDecision T} (items : list T) (x : T) :
  (contains items x = true <-> In x items) /\
  (contains items x = false <-> ~ In x items).
Proof.
  assert (Hiff : contains items x = true <-> In x items).
  { rewrite contains_elem_of. apply list_elem_of_In. }
  split; [assumption|].
  rewrite <- Hiff. destruct (contains items x); split; congruence.
Qed.

(** X2. Under a filter holding a log specification, [filterLogs] returns the
    logs that match the specification, each as often as it occurs and in
    the order of the input, and leaves the state alone. *)
Theorem filterLogs_keeps_matching_in_order {E} (logs : list EthLog)
    (f : Filter) (spec : LogFilter) (w : World E) :
  Parameters f = LogFilterParameters spec ->
  exists keep : EthLog -> bool,
    (forall l, keep l = true <-> Matches_ref spec l) /\
    filterLogs logs f w = (Returned (map NewLog (List.filter keep logs)), w).
Proof.
  intros Hp. exists (logPasses spec). split.
  - intros l. apply logPasses_spec.
  - now apply filterLogs_returns.
Qed.

Lemma filterLogs_keeps_matching_in_order_witness :
  exists keep : EthLog -> bool,
    (forall l, keep l = true <-> Matches_ref anyLogs l) /\
    filterLogs [log0; log0] (subscription "f" anyLogs) (@world0 WireEvent)
    = (Returned (map NewLog (List.filter keep [log0; log0])), world0).
Proof.
  apply (filterLogs_keeps_matching_in_order [log0; log0]
           (subscription "f" anyLogs) anyLogs world0).
  reflexivity.
Defined.

(** X3. Filtering a batch of logs made of two parts gives the result of the
    first part followed by the result of the second. *)
Theorem filterLogs_app {E} (logs1 logs2 : list EthLog) (f : Filter)
    (spec : LogFilter) (w : World E) :
  Parameters f = LogFilterParameters spec ->
  exists kept1 kept2 : list RpcLog,
    filterLogs logs1 f w = (Returned kept1, w) /\
    filterLogs logs2 f w = (Returned kept2, w) /\
    filterLogs (logs1 ++ logs2) f w = (Returned (kept1 ++ kept2), w).
Proof.
  intros Hp. rewrite !(filterLogs_returns _ _ _ _ Hp).
  do 2 eexists. split; [reflexivity|]. split; [reflexivity|].
  now rewrite List.filter_app, map_app.
Qed.

Lemma filterLogs_app_witness :
  exists kept1 kept2 : list RpcLog,
    filterLogs [log0] pollFilter (@world0 WireEvent) = (Returned kept1, world0) /\
    filterLogs [log0; log0] pollFilter (@world0 WireEvent)
      = (Returned kept2, world0) /\
    filterLogs ([log0] ++ [log0; log0]) pollFilter (@world0 WireEvent)
      = (Returned (kept1 ++ kept2), world0).
Proof.
  apply (filterLogs_app [log0] [log0; log0] pollFilter topicSeven world0).
  reflexivity.
Defined.

(** X4. A filter without addresses whose topics are a wildcard slot followed
    by the slot of one topic [T] keeps a log exactly when the second topic
    of the log is [T], whatever its first topic and its address. *)
Theorem wildcard_slot_then_topic {E} (T : Hash) (l : EthLog) (f : Filter)
    (spec : LogFilter) (w : World E) :
  Parameters f = LogFilterParameters spec ->
  Addresses spec = [] ->
  Topics spec = [[]; [T]] ->
  filterLogs [l] f w = (Returned [NewLog l], w) <-> log_Topics l !! 1%nat = Some T.
Proof.
  intros Hp Ha Ht. rewrite (filterLogs_returns _ _ _ _ Hp). simpl.
  pose proof (logPasses_spec spec l) as Hspec.
  assert (Href : Matches_ref spec l <-> log_Topics l !! 1%nat = Some T).
  { unfold Matches_ref. rewrite Ha, Ht. split.
    - intros [_ Hall].
      destruct (Hall 1%nat [T] ltac:(unfold maxTopics; lia) eq_refl)
        as [[=]|(t & Hl & Hin)].
      apply list_elem_of_singleton in Hin. now subst.
    - intros Hl. split; [now left|]. intros i slot _ Hs.
      destruct i as [|[|i]]; simpl in Hs.
      + injection Hs as <-. now left.
      + injection Hs as <-. right. exists T. split; [assumption | apply list_elem_of_here].
      + discriminate. }
  destruct (logPasses spec l); simpl.
  - split; [intros _; apply Href, Hspec; reflexivity | reflexivity].
  - split; [discriminate|]. intros Hl. apply Href, Hspec in Hl. discriminate.
Qed.

Lemma wildcard_slot_then_topic_witness :
  filterLogs [twoTopicsLog] (subscription "f" wildcardNine) (@world0 WireEvent)
  = (Returned [NewLog twoTopicsLog], world0)
  <-> log_Topics twoTopicsLog !! 1%nat = Some 9%N.
Proof.
  apply (wildcard_slot_then_topic 9%N twoTopicsLog
           (subscription "f" wildcardNine) wildcardNine world0);
    reflexivity.
Defined.

(** X5. Wildcard slots added at the end of the topics of a filter change
    nothing: [filterLogs] returns the same logs. *)
Theorem trailing_wildcards_irrelevant {E} (logs : list EthLog) (f f' : Filter)
    (spec spec' : LogFilter) (n : nat) (w : World E) :
  Parameters f = LogFilterParameters spec ->
  Parameters f' = LogFilterParameters spec' ->
  Addresses spec' = Addresses spec ->
  Topics spec' = Topics spec ++ replicate n [] ->
  filterLogs logs f' w = filterLogs logs f w.
Proof.
  intros Hp Hp' Ha Ht.
  rewrite (filterLogs_returns _ _ _ _ Hp), (filterLogs_returns _ _ _ _ Hp').
  do 3 f_equal. apply List.filter_ext. intros l.
  assert (Hiff : Matches_ref spec' l <-> Matches_ref spec l).
  { unfold Matches_ref. rewrite Ha, Ht. split; intros [Haddr Hall];
      (split; [assumption|]); intros i slot Hi Hs.
    - apply (Hall i slot Hi). now apply lookup_app_l_Some.
    - apply lookup_app_Some in Hs as [Hs|[_ Hs]].
      + now apply (Hall i slot Hi).
      + apply lookup_replicate in Hs as [-> _]. now left. }
  rewrite <- !logPasses_spec in Hiff.
  destruct (logPasses spec' l), (logPasses spec l); try reflexivity.
  - symmetry. now apply Hiff.
  - now apply Hiff.
Qed.

Lemma trailing_wildcards_irrelevant_witness :
  filterLogs [log0; twoTopicsLog] (subscription "g" wildcardNinePadded)
    (@world0 WireEvent)
  = filterLogs [log0; twoTopicsLog] (subscription "f" wildcardNine) world0.
Proof.
  apply (trailing_wildcards_irrelevant [log0; twoTopicsLog]
           (subscription "f" wildcardNine) (subscription "g" wildcardNinePadded)
           wildcardNine wildcardNinePadded 2 world0);
    reflexivity.
Defined.

(** X6. A log that has no topic at one of the four positions where the
    filter names topics is dropped. *)
Theorem log_with_too_few_topics_dropped {E} (l : EthLog) (f : Filter)
    (spec : LogFilter) (i : nat) (slot : list Hash) (w : World E) :
  Parameters f = LogFilterParameters spec ->
  (i < maxTopics)%nat ->
  Topics spec !! i = Some slot ->
  slot <> [] ->
  (length (log_Topics l) <= i)%nat ->
  filterLogs [l] f w = (Returned [], w).
Proof.
  intros Hp Hi Hs Hne Hshort. rewrite (filterLogs_returns _ _ _ _ Hp). simpl.
  destruct (logPasses spec l) eqn:Hpass; [|reflexivity].
  apply logPasses_spec in Hpass. destruct Hpass as [_ Hall].
  destruct (Hall i slot Hi Hs) as [->|(t & Ht & _)]; [congruence|].
  apply lookup_lt_Some in Ht. lia.
Qed.

Lemma log_with_too_few_topics_dropped_witness :
  filterLogs [log0] (subscription "f" wildcardNine) (@world0 WireEvent)
  = (Returned [], world0).
Proof.
  apply (log_with_too_few_topics_dropped log0 (subscription "f" wildcardNine)
           wildcardNine 1 [9%N] world0);
    [reflexivity | unfold maxTopics; lia | reflexivity | discriminate | simpl; lia].
Defined.

(** ** [parallelize] at the edges *)

(** X7. With a worker limit of zero and a non-empty list, [parallelize]
    panics on its division, outside of any recovery, before the function is
    run on anything. *)
Theorem parallelize_zero_workers_panics {T E} (items : list T)
    (fn : Z -> list T -> Go E unit) (w : World E) :
  items <> [] ->
  parallelize 0 items fn w
  = (Panicked "runtime error: integer divide by zero", w).
Proof.
  intros Hne. unfold parallelize, len.
  assert (Hlen : (0 < length items)%nat) by (destruct items; simpl; [congruence | lia]).
  rewrite bool_decide_eq_false_2 by lia.
  rewrite (bool_decide_eq_false_2 (0 > Z.of_nat (length items))) by lia.
  now rewrite bool_decide_eq_true_2.
Qed.

Lemma parallelize_zero_workers_panics_witness :
  parallelize 0 [subscription "f" anyLogs]
    (notifyNewLogs_fn plainEndpoints sample_Marshal block6) world0
  = (Panicked "runtime error: integer divide by zero", world0).
Proof. apply parallelize_zero_workers_panics. discriminate. Defined.

(** X8. With a negative worker limit [parallelize] returns normally without
    running the function at all: no item is handed over. *)
Theorem parallelize_negative_workers_runs_nothing {T E} (maxWorkers : Z)
    (items : list T) (fn : Z -> list T -> Go E unit) (w : World E) :
  maxWorkers < 0 ->
  parallelize maxWorkers items fn w = (Returned tt, w).
Proof.
  intros Hneg. unfold parallelize, len.
  case_bool_decide as Hempty; [reflexivity|].
  rewrite (bool_decide_eq_false_2 (maxWorkers > Z.of_nat (length items))) by lia.
  rewrite bool_decide_eq_false_2 by lia.
  now rewrite Z2Nat.nonpos by lia.
Qed.

Lemma parallelize_negative_workers_runs_nothing_witness :
  parallelize (-3) [subscription "f" anyLogs]
    (notifyNewLogs_fn plainEndpoints sample_Marshal block6) world0
  = (Returned tt, world0).
Proof. apply parallelize_negative_workers_runs_nothing. lia. Defined.

Lemma ceilDiv_same (n : nat) : (0 < n)%nat -> ceilDiv n n = 1%nat.
Proof.
  intros Hn. unfold ceilDiv. symmetry.
  apply (Nat.div_unique _ _ _ (n - 1)); lia.
Qed.

Lemma ceilDiv_one (n : nat) : ceilDiv n 1 = n.
Proof. unfold ceilDiv. rewrite Nat.div_1_r. lia. Qed.

Lemma tasksFrom_singletons {T} (pre rest : list T) :
  tasksFrom (length rest) (length pre) 1 (pre ++ rest)
  = imap (fun k x => (Z.of_nat (length pre + k), [x])) rest.
Proof.
  revert pre. induction rest as [|x rest IH]; intros pre; simpl.
  - reflexivity.
  - rewrite bool_decide_eq_true_2 by (rewrite length_app; simpl; lia).
    rewrite Nat.mul_1_r, drop_app_length. simpl. rewrite Nat.add_0_r.
    f_equal. specialize (IH (pre ++ [x])).
    rewrite <- app_assoc, length_app in IH. simpl in IH.
    replace (S (length pre)) with (length pre + 1)%nat by lia.
    rewrite IH. apply imap_ext. intros k y _. simpl. do 2 f_equal. lia.
Qed.

(** X9. When the worker limit is at least the number of items, every item
    is the single item of its own task, numbered by its position. *)
Theorem parallelize_one_task_per_item {T E} (maxWorkers : Z) (items : list T)
    (fn : Z -> list T -> Go E unit) (w : World E) :
  len items <= maxWorkers ->
  parallelize maxWorkers items fn w
  = runTasks fn (imap (fun k x => (Z.of_nat k, [x])) items) w.
Proof.
  intros HW. unfold len in HW. destruct items as [|x items]; [reflexivity|].
  rewrite parallelize_tasks by (simpl in *; try discriminate; lia).
  replace (Z.to_nat maxWorkers `min` length (x :: items))%nat
    with (length (x :: items)) by lia.
  rewrite ceilDiv_same by (simpl; lia).
  f_equal. exact (tasksFrom_singletons [] (x :: items)).
Qed.

Lemma parallelize_one_task_per_item_witness :
  parallelize 16 [brokenSubscription "bad"; subscription "good" anyLogs]
    (notifyNewLogs_fn plainEndpoints sample_Marshal block6) world0
  = runTasks (notifyNewLogs_fn plainEndpoints sample_Marshal block6)
      (imap (fun k x => (Z.of_nat k, [x]))
            [brokenSubscription "bad"; subscription "good" anyLogs]) world0.
Proof. apply parallelize_one_task_per_item. unfold len. simpl. lia. Defined.

(** X10. With a single worker the whole list is one task, run under
    recovery as worker 0. *)
Theorem parallelize_single_worker {T E} (items : list T)
    (fn : Z -> list T -> Go E unit) (w : World E) :
  items <> [] ->
  parallelize 1 items fn w = recovered (fn 0 items) w.
Proof.
  intros Hne. rewrite parallelize_tasks by (try assumption; lia).
  assert (Hlen : (0 < length items)%nat) by (destruct items; simpl; [congruence | lia]).
  replace (Z.to_nat 1 `min` length items)%nat with 1%nat by lia.
  rewrite ceilDiv_one. simpl.
  rewrite drop_0, firstn_all. change (Z.of_nat 0) with 0. unfold bind.
  destruct (recovered_returns (fn 0 items) w) as [w' Hw]. now rewrite Hw.
Qed.

Lemma parallelize_single_worker_witness :
  parallelize 1 [subscription "f" anyLogs; subscription "g" anyLogs]
    (notifyNewLogs_fn plainEndpoints sample_Marshal block6) world0
  = recovered (notifyNewLogs_fn plainEndpoints sample_Marshal block6 0
                 [subscription "f" anyLogs; subscription "g" anyLogs]) world0.
Proof. apply parallelize_single_worker. discriminate. Defined.

Lemma tasksFrom_lookup_Some {T} (fuel k jobSize : nat) (items : list T) (i : nat) :
  (i < fuel)%nat -> ((k + i) * jobSize <= length items)%nat ->
  tasksFrom fuel k jobSize items !! i
  = Some (Z.of_nat (k + i), take jobSize (drop ((k + i) * jobSize) items)).
Proof.
  revert k i. induction fuel as [|fuel IH]; intros k i Hi Hk; [lia|]. simpl.
  assert (Hle : (k * jobSize <= (k + i) * jobSize)%nat)
    by (apply Nat.mul_le_mono_r; lia).
  rewrite bool_decide_eq_true_2 by lia.
  destruct i as [|i]; simpl.
  - now rewrite Nat.add_0_r.
  - replace (k + S i)%nat with (S k + i)%nat in * by lia.
    apply IH; [lia | assumption].
Qed.

(** X11. For a non-empty list and a positive worker limit, the function is
    handed an empty chunk exactly when the chunk size divides the number of
    items with a quotient below the number of workers: the worker whose
    range starts right at the end of the list is not skipped. *)
Theorem parallelize_empty_chunk {T} (maxWorkers : Z) (items : list T) :
  items <> [] -> 0 < maxWorkers ->
  let workersCount := (Z.to_nat maxWorkers `min` length items)%nat in
  let jobSize := ceilDiv (length items) workersCount in
  exists tasks : list (Z * list T),
    (forall E (fn : Z -> list T -> Go E unit) (w : World E),
       parallelize maxWorkers items fn w = runTasks fn tasks w) /\
    ((exists worker, (worker, []) ∈ tasks) <->
     (exists q, q * jobSize = length items /\ q < workersCount)%nat).
Proof.
  intros Hne HW workersCount jobSize.
  assert (Hlen : (0 < length items)%nat) by (destruct items; simpl; [congruence | lia]).
  assert (Hwc : (0 < workersCount)%nat) by (subst workersCount; lia).
  assert (Hjs : (0 < jobSize)%nat) by (apply ceilDiv_pos; assumption).
  exists (tasksFrom workersCount 0 jobSize items).
  split; [intros E fn w; now apply parallelize_tasks|]. split.
  - intros [worker Hin]. apply list_elem_of_lookup in Hin as [i Hi].
    pose proof (lookup_lt_Some _ _ _ Hi) as Hlt.
    pose proof (tasksFrom_length workersCount 0 jobSize items) as Hn.
    apply tasksFrom_lookup in Hi; [|assumption]. simpl in Hi.
    destruct Hi as (_ & Hchunk & Hstart).
    apply (f_equal length) in Hchunk. simpl in Hchunk.
    rewrite length_take, length_drop in Hchunk.
    exists i. split; lia.
  - intros (q & Hq & Hlt). exists (Z.of_nat q).
    apply list_elem_of_lookup. exists q.
    rewrite (tasksFrom_lookup_Some workersCount 0 jobSize items q Hlt)
      by (simpl; lia).
    simpl. rewrite Hq, drop_all. now rewrite take_nil.
Qed.

Lemma parallelize_empty_chunk_witness :
  exists tasks : list (Z * list nat),
    (forall E (fn : Z -> list nat -> Go E unit) (w : World E),
       parallelize 16 (seq 0 18) fn w = runTasks fn tasks w) /\
    ((exists worker, (worker, []) ∈ tasks) <->
     (exists q, q * ceilDiv (length (seq 0 18)) (Z.to_nat 16 `min` length (seq 0 18))
                = length (seq 0 18) /\
                q < Z.to_nat 16 `min` length (seq 0 18))%nat).
Proof.
  apply (parallelize_empty_chunk 16 (seq 0 18)); [discriminate | lia].
Defined.

(** ** Traces of the fan-out *)

Lemma after_world0_l {E} (d : World E) : after world0 d = d.
Proof. now destruct d. Qed.







Lemma framed_recovered {E} (body : Go E unit) :
  framed body -> framed (recovered body).
Proof.
  intros Hb w. unfold recovered. rewrite (Hb w).
  destruct (body world0) as [[[]|v] d]; simpl; [reflexivity|].
  unfold Println, after. simpl. now rewrite app_assoc.
Qed.


















Lemma enqueued_app (evs1 evs2 : list WireEvent) :
  enqueued (evs1 ++ evs2) = enqueued evs1 ++ enqueued evs2.
Proof. unfold enqueued. apply omap_app. Qed.

(** X14. The skip test never enqueues anything and never prints: whatever
    it answers, and also when it panics, the payloads handed to the
    connections and the standard output are the ones it started with. *)
Theorem shouldSkipLogFilter_never_enqueues {S} (e : EthEndpoints S)
    (event : NewL2BlockEvent) (filter : Filter) (w : World WireEvent) :
  enqueued (events (shouldSkipLogFilter e event filter w).2)
    = enqueued (events w)
  /\ stdout (shouldSkipLogFilter e event filter w).2 = stdout w.
Proof.
  unfold shouldSkipLogFilter, assertLogFilter, bind, ret, panic, tell, emit.
  destruct (Parameters filter) as [|lf]; [split; reflexivity|].
  destruct (BlockHash lf); [case_bool_decide; split; reflexivity|].
  destruct (FromBlock lf) as [n|].
  - destruct (GetNumericBlockNumber e (Some n)) as [fromBlock|rpcErr]; simpl.
    + case_bool_decide; [split; reflexivity|].
      destruct (ToBlock lf) as [m|]; [|split; reflexivity].
      destruct (GetNumericBlockNumber e (Some m)); simpl; [split; reflexivity|].
      rewrite enqueued_app. simpl. now rewrite app_nil_r.
    + rewrite enqueued_app. simpl. now rewrite app_nil_r.
  - destruct (ToBlock lf) as [m|]; [|split; reflexivity].
    destruct (GetNumericBlockNumber e (Some m)); simpl; [split; reflexivity|].
    rewrite enqueued_app. simpl. now rewrite app_nil_r.
Qed.


(** An encoder that fails: the log is still enqueued, as an empty payload. *)
Example enqueueLogs_encoding_failure :
  enqueueLogs sample_Marshal_failing (subscription "f" anyLogs) [NewLog log0] world0
  = (Returned tt,
     {| events := [LogError "failed to marshal ethLog response to subscription";
                   Enqueue "f" EmptyString];
        stdout := [] |}).
Proof. reflexivity. Qed.





(** When the block cannot be built, nothing is enqueued. *)
Example notifyNewHeads_build_failure :
  notifyNewHeads plainEndpoints Z sample_NewBlock_failing sample_Marshal_block
    block6 headStore world0
  = (Returned tt,
     {| events := [LogError "failed to build block response to subscription"];
        stdout := [] |}).
Proof. reflexivity. Qed.

(** X17. The event hook never panics: whatever the store holds, whatever the
    collaborators answer and whatever state it starts from, [onNewL2Block]
    returns normally. *)
Theorem onNewL2Block_never_panics {S} (e : EthEndpoints S)
    (json_Marshal : RpcLog -> result error Data) (RpcBlock : Type)
    (types_NewBlock : NewL2BlockEvent -> result error RpcBlock)
    (json_Marshal_block : RpcBlock -> result error Data)
    (event : NewL2BlockEvent) (s : S) (w : World WireEvent) :
  exists w',
    onNewL2Block e json_Marshal RpcBlock types_NewBlock json_Marshal_block
      event s w = (Returned tt, w').
Proof.
  unfold onNewL2Block.
  assert (Hheads : exists w1,
    notifyNewHeads e RpcBlock types_NewBlock json_Marshal_block event s w
    = (Returned tt, w1)).
  { unfold notifyNewHeads. destruct (types_NewBlock event) as [b|err].
    - destruct (json_Marshal_block b) as [data|err].
      + apply parallelize_returns. lia.
      + eexists. reflexivity.
    - eexists. reflexivity. }
  destruct Hheads as [w1 Hheads].
  rewrite (bind_returned _ _ _ _ _ Hheads).
  apply notifyNewLogs_returns.
Qed.

(** ** What a poll answers and what it changes *)

(** X18. [GetFilterChanges] never answers an empty list: a result without
    error is nil or a non-empty list of hashes or of logs, and a result
    with an error is nil. *)
Theorem GetFilterChanges_never_empty_list {S} (e : EthEndpoints S)
    (id : string) (s : S) :
  match (GetFilterChanges e id s).1 with
  | Returned (res, rpcErr) =>
      res <> HashesResult [] /\ res <> LogsResult [] /\
      (rpcErr <> None -> res = Nil)
  | Panicked _ => True
  end.
Proof.
  unfold GetFilterChanges, updateFilterLastPoll, RPCErrorResponse.
  repeat (case_match; simpl in *; simplify_eq);
    repeat split; try discriminate; try reflexivity; try congruence;
    intros [= ->]; simpl in *; discriminate.
Qed.

(** A filter whose query finds nothing is answered nil, not an empty list. *)
Example GetFilterChanges_nothing_new :
  (GetFilterChanges (sampleEndpoints (fixedLogsState []) 6) "0x1" pollStore).1
  = Returned (Nil, None).
Proof. reflexivity. Qed.

(** X19. The only change [GetFilterChanges] makes to the store is the one of
    [UpdateFilterLastPoll] on the filter it has looked up: the store it
    leaves is the one it was given, or the one that update left. *)
Theorem GetFilterChanges_changes_only_the_cursor {S} (e : EthEndpoints S)
    (id : string) (s : S) :
  (GetFilterChanges e id s).2 = s
  \/ exists f, GetFilter (storage e) id s = Ok f /\
       (GetFilterChanges e id s).2
       = (UpdateFilterLastPoll (storage e) (ID f) s).2.
Proof.
  unfold GetFilterChanges, updateFilterLastPoll.
  destruct (GetFilter (storage e) id s) as [f|err] eqn:Hg;
    [|left; now destruct (errors_Is err ErrNotFound)].
  destruct (UpdateFilterLastPoll (storage e) (ID f) s) as [uerr s'] eqn:Hu.
  repeat (case_match; simpl in *; simplify_eq);
    try (left; reflexivity);
    right; exists f; rewrite Hu; split; reflexivity.
Qed.

(** X20. Data is answered only when moving the cursor did not fail: if the
    store refuses the update of the last poll time with an error other than
    "not found", whatever [GetFilterChanges] returns carries no data. *)
Theorem GetFilterChanges_no_data_without_cursor {S} (e : EthEndpoints S)
    (id : string) (s : S) (f : Filter) (err : error) :
  GetFilter (storage e) id s = Ok f ->
  (UpdateFilterLastPoll (storage e) (ID f) s).1 = Some err ->
  err <> ErrNotFound ->
  match (GetFilterChanges e id s).1 with
  | Returned (res, _) => res = Nil
  | Panicked _ => True
  end.
Proof.
  intros Hg Hu Hne. unfold GetFilterChanges, updateFilterLastPoll.
  rewrite Hg.
  destruct (UpdateFilterLastPoll (storage e) (ID f) s) as [uerr s'].
  simpl in Hu. subst uerr.
  unfold errors_Is. rewrite (bool_decide_eq_false_2 _ Hne). simpl.
  unfold RPCErrorResponse.
  repeat (case_match; simpl in *; simplify_eq); reflexivity.
Qed.

Lemma GetFilterChanges_no_data_without_cursor_witness :
  match (GetFilterChanges readOnlyEndpoints "0x1" pollStore).1 with
  | Returned (res, _) => res = Nil
  | Panicked _ => True
  end.
Proof.
  apply (GetFilterChanges_no_data_without_cursor readOnlyEndpoints "0x1"
           pollStore pollFilter (errorString "store is read-only"));
    [reflexivity | reflexivity | discriminate].
Defined.

(** The same poll, evaluated: the logs were found, the update failed, the
    caller gets the error and no log. *)
Example GetFilterChanges_update_refused :
  GetFilterChanges readOnlyEndpoints "0x1" pollStore
  = (Returned (Nil, Some (NewRPCError DefaultErrorCode
       "failed to update last time the filter changes were requested")),
     pollStore).
Proof. reflexivity. Qed.

(** X21. [GetFilterLogs] looks neither at the last poll time of the filter
    nor at a [Since] kept in its parameters: two stored log filters whose
    specifications agree apart from [Since] get the same answer, and the
    store is left as it was. *)
Theorem GetFilterLogs_ignores_cursor {S} (e : EthEndpoints S)
    (id id' : string) (s s' : S) (f f' : Filter) (lf lf' : LogFilter) :
  GetFilter (storage e) id s = Ok f ->
  GetFilter (storage e) id' s' = Ok f' ->
  Type_ f = FilterTypeLog -> Type_ f' = FilterTypeLog ->
  Parameters f = LogFilterParameters lf ->
  Parameters f' = LogFilterParameters lf' ->
  with_Since None lf = with_Since None lf' ->
  (GetFilterLogs e id s).1 = (GetFilterLogs e id' s').1 /\
  (GetFilterLogs e id s).2 = s /\ (GetFilterLogs e id' s').2 = s'.
Proof.
  intros Hg Hg' Hty Hty' Hp Hp' Heq. unfold GetFilterLogs.
  rewrite Hg, Hg', Hty, Hty', Hp, Hp'. simpl. now rewrite Heq.
Qed.

Lemma GetFilterLogs_ignores_cursor_witness :
  (GetFilterLogs plainEndpoints "0x1" pollStore).1
  = (GetFilterLogs plainEndpoints "0x1" pollStoreLater).1 /\
  (GetFilterLogs plainEndpoints "0x1" pollStore).2 = pollStore /\
  (GetFilterLogs plainEndpoints "0x1" pollStoreLater).2 = pollStoreLater.
Proof.
  apply (GetFilterLogs_ignores_cursor plainEndpoints "0x1" "0x1" pollStore
           pollStoreLater pollFilter pollFilterLater topicSeven
           (with_Since (Some 42) topicSeven));
    reflexivity.
Defined.

(** ** Registration and removal *)

(** X22. [Subscribe] creates a filter only for the names "newHeads" and
    "logs": for every other name it answers an error, without a result and
    without calling the store. *)
Theorem Subscribe_other_names_rejected {S}
    (storage_NewBlockFilter : option Z -> S -> result error string * S)
    (storage_NewLogFilter : option Z -> LogFilter -> S -> result error string * S)
    (InvalidParamsErrorCode : Z) (error_Error : error -> string)
    (wsConn : option Z) (name : string) (logFilter : option LogFilter) (s : S) :
  name <> "newHeads"%string -> name <> "logs"%string ->
  exists message : string,
    Subscribe storage_NewBlockFilter storage_NewLogFilter InvalidParamsErrorCode
      error_Error wsConn name logFilter s
    = ((NilValue, Some (NewRPCError DefaultErrorCode message)), s) /\
    (message = "not supported yet"%string \/ message = "invalid filter name"%string).
Proof.
  intros Hheads Hlogs. unfold Subscribe, newPendingTransactionFilter.
  rewrite (bool_decide_eq_false_2 _ Hheads), (bool_decide_eq_false_2 _ Hlogs).
  repeat case_match; eexists; split; try reflexivity; auto.
Qed.

Lemma Subscribe_other_names_rejected_witness :
  exists message : string,
    Subscribe refuseBlockFilter refuseLogFilter (-32602) sample_error_Error
      (Some 1) "newPendingTransactions" None emptyStore
    = ((NilValue, Some (NewRPCError DefaultErrorCode message)), emptyStore) /\
    (message = "not supported yet"%string \/ message = "invalid filter name"%string).
Proof.
  apply (Subscribe_other_names_rejected refuseBlockFilter refuseLogFilter
           (-32602) sample_error_Error (Some 1) "newPendingTransactions" None
           emptyStore);
    discriminate.
Defined.

(** X23. [Unsubscribe] answers true exactly when the store removed the
    filter, false without error exactly when the store did not know the
    identifier, and an error for any other failure of the store; it does
    not look at the connection it is called from, and the store it leaves
    is the one the removal left. *)
Theorem Unsubscribe_outcomes {S}
    (storage_UninstallFilter : string -> S -> option error * S)
    (wsConn : option Z) (filterID : string) (s : S) :
  let removal := storage_UninstallFilter filterID s in
  let answer := Unsubscribe storage_UninstallFilter wsConn filterID s in
  answer.2 = removal.2 /\
  (answer.1 = (BoolValue true, None) <-> removal.1 = None) /\
  (answer.1 = (BoolValue false, None) <-> removal.1 = Some ErrNotFound) /\
  ((exists rpcErr, answer.1 = (NilValue, Some rpcErr)) <->
   exists err, removal.1 = Some err /\ err <> ErrNotFound).
Proof.
  unfold Unsubscribe, UninstallFilter, RPCErrorReply, RPCErrorResponse, errors_Is.
  destruct (storage_UninstallFilter filterID s) as [[err|] s']; simpl.
  - case_bool_decide as Herr; simpl.
    + subst err. repeat split; try discriminate; try reflexivity.
      * intros [? [=]].
      * intros (err & [= <-] & Hne). contradiction.
    + repeat split; try discriminate.
      * intros [= ->]. contradiction.
      * intros _. eauto.
      * intros _. eauto.
  - repeat split; try discriminate; try reflexivity.
    + intros [? [=]].
    + intros (err & [=] & _).
Qed.

(** On the in-memory store: an unknown identifier is answered false, a
    known one true, and after that it is unknown. *)
Example Unsubscribe_unknown_then_known :
  (Unsubscribe mem_UninstallFilter (Some 1) "0x9" pollStore).1
    = (BoolValue false, None) /\
  (Unsubscribe mem_UninstallFilter (Some 1) "0x2" pollStore).1
    = (BoolValue true, None) /\
  (Unsubscribe mem_UninstallFilter (Some 1) "0x2"
     (Unsubscribe mem_UninstallFilter (Some 1) "0x2" pollStore).2).1
    = (BoolValue false, None).
Proof. repeat split; reflexivity. Qed.

(** X24. For a block filter, and likewise for a pending-transaction filter,
    a poll whose retrieval and cursor update both succeed answers the
    hashes the collaborator found since the last poll, unchanged and in
    order (nil when there are none), and leaves the store with the cursor
    moved. *)
Theorem GetFilterChanges_hashes_since_last_poll {S} (e : EthEndpoints S)
    (id : string) (s : S) (f : Filter) (hashes : list Hash) :
  GetFilter (storage e) id s = Ok f ->
  (Type_ f = FilterTypeBlock /\
     GetL2BlockHashesSince (state e) (LastPoll f) = Ok hashes)
  \/ (Type_ f = FilterTypePendingTx /\
     GetPendingTxHashesSince (pool e) (LastPoll f) = Ok hashes) ->
  (updateFilterLastPoll e (ID f) s).1 = None ->
  GetFilterChanges e id s
  = (Returned (match hashes with
               | [] => Nil
               | _ :: _ => HashesResult hashes
               end, None),
     (updateFilterLastPoll e (ID f) s).2).
Proof.
  intros Hg Hdata Hu. unfold GetFilterChanges. rewrite Hg.
  destruct Hdata as [[Hty Hh]|[Hty Hh]]; rewrite Hty, Hh;
    destruct (updateFilterLastPoll e (ID f) s) as [rpcErr s'];
    simpl in Hu; subst rpcErr; destruct hashes; reflexivity.
Qed.

Lemma GetFilterChanges_hashes_since_last_poll_witness :
  GetFilterChanges (sampleEndpoints twoBlocksState 6) "0x2" pollStore
  = (Returned (HashesResult [11%N; 12%N], None),
     (updateFilterLastPoll (sampleEndpoints twoBlocksState 6)
        (ID (blockFilter "0x2")) pollStore).2).
Proof.
  apply (GetFilterChanges_hashes_since_last_poll
           (sampleEndpoints twoBlocksState 6) "0x2" pollStore
           (blockFilter "0x2") [11%N; 12%N]).
  - reflexivity.
  - left. split; reflexivity.
  - reflexivity.
Defined.
